(** * search_copy.py: the codebase aggregator, embedded and verified

    The script walks the directory that contains it, classifies files by
    extension, buckets them per language, orders the languages by volume
    and renders one markdown document.  This file embeds
    [generate_codebase_markdown] of [src/search_copy.py] function by
    function and proves the properties the specification states about it.

    Modelling conventions
    - a Python [str] is a list of Unicode code points ([N]); [len] is
      [length]; concatenation is [++];
    - [str.lower] and [str.upper] are builtins of the interpreter: they are
      Section variables, constrained only on ASCII text where a proof needs
      their value;
    - the file system below the root is a finite tree of real directories,
      in the order [os.scandir] lists them; each file carries the outcome of
      [open(...).read()];
    - [ext_to_lang] and [exclude_dirs] are only ever looked up: [gmap] and
      [gset]; [files_by_lang] and [lang_volumes] are iterated in insertion
      order: association lists;
    - the report is a file opened for writing with the strict UTF-8
      encoder: [open] can raise, and so can every [outfile.write], on a text
      that holds a lone surrogate; neither is caught, and the run then ends
      with what was written so far. *)

From Stdlib Require Import ZArith NArith List String Ascii Lia Permutation Sorted.
From Stdlib Require Import DecimalString.
From stdpp Require Import base decidable option list gmap.
Import ListNotations.

Local Open Scope Z_scope.

(** ** Python strings *)

Definition char := N.
Definition str := list N.

(** An ASCII literal of the source as a [str]. *)
Definition py (lit : string) : str :=
  List.map N_of_ascii (list_ascii_of_string lit).

Definition len (s : str) : Z := Z.of_nat (length s).

(** [c * n] for a one-character string [c]; a negative count gives the empty
    string, as in Python. *)
Definition str_mul (c : char) (n : Z) : str := repeat c (Z.to_nat n).

Definition is_ascii (s : str) : Prop := Forall (fun c => (c < 128)%N) s.

(** A text the strict UTF-8 encoder accepts: it holds no surrogate code point
    (U+D800 to U+DFFF).  Names that [os.walk] decoded from undecodable bytes
    hold such code points. *)
Definition encodable (s : str) : bool :=
  forallb (fun c => negb ((55296 <=? c) && (c <=? 57343))%N) s.

Definition ascii_lower_char (c : char) : char :=
  if ((65 <=? c) && (c <=? 90))%N then (c + 32)%N else c.

Definition ascii_upper_char (c : char) : char :=
  if ((97 <=? c) && (c <=? 122))%N then (c - 32)%N else c.

(** What [str.lower] and [str.upper] do on ASCII text. *)
Definition ascii_lower (s : str) : str := List.map ascii_lower_char s.
Definition ascii_upper (s : str) : str := List.map ascii_upper_char s.

(** The one fact about [str.lower] the proofs rely on: on ASCII text it
    lowers the letters A-Z and keeps every other character. *)
Definition lowers_ascii (lower : str -> str) : Prop :=
  forall s, is_ascii s -> lower s = ascii_lower s.

Definition sep : char := 47%N.      (* '/' *)
Definition extsep : char := 46%N.   (* '.' *)
Definition newline : char := 10%N.  (* '\n' *)
Definition space : char := 32%N.    (* ' ' *)
Definition dash : char := 45%N.     (* '-' *)

(** ** os.path (posixpath) *)

Module os_path.

(** [p.rfind(c)]: index of the last occurrence, [-1] when there is none. *)
Fixpoint rfind (c : char) (p : str) : Z :=
  match p with
  | [] => -1
  | x :: p' =>
      let r := rfind c p' in
      if 0 <=? r then r + 1
      else if N.eqb x c then 0 else -1
  end.

(** [p[i:j]] for [0 <= i]. *)
Definition slice (p : str) (i j : Z) : str :=
  firstn (Z.to_nat (j - i)) (skipn (Z.to_nat i) p).

(** [genericpath._splitext]: the extension starts at the last dot, unless
    that dot is before the last separator or only dots precede it in the
    last component. *)
Definition splitext (p : str) : str * str :=
  let sepIndex := rfind sep p in
  let dotIndex := rfind extsep p in
  if sepIndex <? dotIndex then
    if existsb (fun ch => negb (N.eqb ch extsep)) (slice p (sepIndex + 1) dotIndex)
    then (firstn (Z.to_nat dotIndex) p, skipn (Z.to_nat dotIndex) p)
    else (p, [])
  else (p, []).

(** [os.path.basename]. *)
Definition basename (p : str) : str :=
  skipn (Z.to_nat (rfind sep p + 1)) p.

(** [b.startswith('/')] and [a.endswith('/')]. *)
Definition startswith_sep (b : str) : bool :=
  match b with x :: _ => N.eqb x sep | [] => false end.

Definition endswith_sep (a : str) : bool :=
  match last a with Some x => N.eqb x sep | None => false end.

(** [os.path.join(a, b)] for two components: an absolute [b] replaces [a];
    otherwise [b] is appended, after a separator unless [a] is empty or
    already ends with one. *)
Definition join (a b : str) : str :=
  if startswith_sep b then b
  else if bool_decide (a = []) || endswith_sep a then a ++ b
  else a ++ sep :: b.

End os_path.

(** ** The constants of the script *)

Definition exclude_dirs : gset str :=
  list_to_set (List.map py
    [".git"; "venv"; "__pycache__"; ".env"; ".pytest_cache"; "env";
     "node_modules"; ".idea"; "target"; "build"; "dist"]%string).

(** The dict literal [lang_extensions], in its declaration order (the order
    [.items()] iterates). *)
Definition lang_extensions : list (str * list str) :=
  List.map (fun '(l, es) => (py l, List.map py es))
    [ ("Python", [".py"]);
      ("Rust", [".rs"]);
      ("JavaScript", [".js"; ".jsx"]);
      ("TypeScript", [".ts"; ".tsx"]);
      ("Java", [".java"]);
      ("C++", [".cpp"; ".hpp"; ".cc"; ".cxx"; ".h"; ".hh"]);
      ("C", [".c"; ".h"]);
      ("Go", [".go"]);
      ("Ruby", [".rb"]);
      ("PHP", [".php"]);
      ("Swift", [".swift"]);
      ("Kotlin", [".kt"]);
      ("Scala", [".scala"]);
      ("HTML", [".html"; ".htm"]);
      ("CSS", [".css"; ".scss"; ".sass"]);
      ("Shell", [".sh"; ".bash"]);
      ("C#", [".cs"]);
      ("R", [".r"; ".R"]);
      ("SQL", [".sql"]) ]%string.

(** ** The extension registry *)

Section Registry.
Variable lower : str -> str.

(** The inner loop: [ext_to_lang[ext.lower()] = lang] for each [ext]. *)
Definition register_exts (lang : str) (exts : list str) (m : gmap str str)
  : gmap str str :=
  foldl (fun m ext => <[lower ext := lang]> m) m exts.

(** The inversion loop over any ordered declaration list. *)
Definition invert (decls : list (str * list str)) : gmap str str :=
  foldl (fun m '(lang, exts) => register_exts lang exts m) ∅ decls.

Definition ext_to_lang : gmap str str := invert lang_extensions.
End Registry.

(** ** The file system below the root

    A directory lists its non-directory entries and its subdirectories, each
    in the order [os.scandir] reports them.  A file carries what
    [open(file_path, 'r', encoding='utf-8', errors='ignore').read()] does on
    it: the decoded text, or an exception. *)

Inductive ReadError := PermissionDenied | IOFailure | FileVanished.

Inductive ReadOutcome :=
| ReadOk (content : str)
| ReadFails (e : ReadError).

Record File := mkFile { f_name : str; f_read : ReadOutcome }.

Inductive Dir :=
| MkDir (files : list File) (subdirs : Subdirs)
with Subdirs :=
| NoDirs
| ConsDir (name : str) (d : Dir) (rest : Subdirs).

Fixpoint dirnames_of (sd : Subdirs) : list str :=
  match sd with
  | NoDirs => []
  | ConsDir name _ rest => name :: dirnames_of rest
  end.

(** The tuple [(filename, dirpath, content)] appended to a bucket. *)
Record FileRecord := mkRecord {
  r_filename : str;
  r_dirpath : str;
  r_content : str
}.

(** ** Insertion-ordered dicts as association lists *)

Definition dict (V : Type) := list (str * V).

Fixpoint dict_get {V} (k : str) (d : dict V) : option V :=
  match d with
  | [] => None
  | (k', v) :: d' => if bool_decide (k' = k) then Some v else dict_get k d'
  end.

(** [d[k] = v]: an existing key keeps its position. *)
Fixpoint dict_set {V} (k : str) (v : V) (d : dict V) : dict V :=
  match d with
  | [] => [(k, v)]
  | (k', v') :: d' =>
      if bool_decide (k' = k) then (k', v) :: d' else (k', v') :: dict_set k v d'
  end.

Definition dict_keys {V} (d : dict V) : list str := List.map fst d.

(** [k in keys], decided. *)
#[global] Instance In_str_dec (k : str) (l : list str) : Decision (In k l) :=
  In_dec (fun a b : str => decide (a = b)) k l.

(** [files_by_lang[lang].append(r)] on a [defaultdict(list)]: the bucket is
    created, at the end of the dict, by its first append. *)
Fixpoint bucket_append (lang : str) (r : FileRecord) (d : dict (list FileRecord))
  : dict (list FileRecord) :=
  match d with
  | [] => [(lang, [r])]
  | (k, b) :: d' =>
      if bool_decide (k = lang) then (k, b ++ [r]) :: d'
      else (k, b) :: bucket_append lang r d'
  end.

(** [files_by_lang[lang]] read back: a missing key of a [defaultdict(list)]
    reads as the empty list. *)
Definition bucket_of (lang : str) (d : dict (list FileRecord)) : list FileRecord :=
  default [] (dict_get lang d).

(** ** sorted(..., key=..., reverse=True)

    Python documents [sorted] as stable, also under [reverse=True]: elements
    with equal keys keep their input order.  The model is the stable
    insertion sort: an element is put before the first one whose key is not
    larger. *)

Fixpoint insert_desc {A} (key : A -> Z) (x : A) (l : list A) : list A :=
  match l with
  | [] => [x]
  | y :: l' => if key x <? key y then y :: insert_desc key x l' else x :: y :: l'
  end.

Fixpoint sorted_reverse {A} (key : A -> Z) (l : list A) : list A :=
  match l with
  | [] => []
  | x :: l' => insert_desc key x (sorted_reverse key l')
  end.

(** [sum(len(content) for _, _, content in files)]. *)
Definition total_chars (files : list FileRecord) : Z :=
  foldl (fun acc r => acc + len (r_content r)) 0 files.

(** ** generate_codebase_markdown *)

(** How a run can end early: [open(output_path, 'w', encoding='utf-8')]
    raises, or an [outfile.write(s)] raises [UnicodeEncodeError] on its
    argument [s].  Neither is caught by the script. *)
Inductive RunError :=
| OpenRaised
| WriteRaised (s : str).

(** The outcome of one run: the path of the report; what the report holds
    when the run ends ([None] when it was never opened, and then left as it
    was); the line printed; the exception that ended the writing of the
    report, if any; whether the final [print], reached once the report is
    written and closed, raised. *)
Record RunResult := mkRun {
  out_path : str;
  out_document : option str;
  out_stdout : str;
  out_raised : option RunError;
  out_print_raised : bool
}.

(** The report while it is written: the text accepted so far and, once a
    write has raised, the argument it raised on.  Leaving the [with] block,
    normally or by the exception, closes the file with the text accepted so
    far. *)
Record Outfile := mkOutfile {
  written : str;
  write_error : option str
}.

Section Script.
(** [str.lower], [str.upper]. *)
Variables lower upper : str -> str.
(** [os.path.dirname(os.path.abspath(__file__))] and
    [os.path.basename(__file__)]. *)
Variables root_dir script_name : str.
(** What the surroundings answer to [open(output_path, 'w')] apart from what
    the tree shows: [true] when it raises (a root directory that cannot be
    written into, a name the file system refuses, ...). *)
Variable open_fails : bool.
(** What the surroundings answer to the final [print]: [true] when it raises
    and prints nothing (a console that cannot encode the line, a closed
    stream). *)
Variable print_fails : bool.

Definition project_name : str := os_path.basename root_dir.
Definition output_filename : str := project_name ++ py ".codebase.md".
Definition output_path : str := os_path.join root_dir output_filename.

(** [d not in exclude_dirs], the test of the pruning comprehension. *)
Definition not_excluded (d : str) : bool :=
  negb (bool_decide (d ∈ exclude_dirs)).

(** [os.walk(root_dir)], top-down, with the loop body's
    [dirnames[:] = [d for d in dirnames if d not in exclude_dirs]] applied
    between the yield of a directory and the descent into its
    subdirectories.  Each element is the triple the loop body works on. *)
Fixpoint os_walk (top : str) (d : Dir) : list (str * list str * list File) :=
  match d with
  | MkDir files subdirs =>
      (top, List.filter not_excluded (dirnames_of subdirs), files)
        :: walk_subdirs top subdirs
  end
with walk_subdirs (top : str) (sd : Subdirs) : list (str * list str * list File) :=
  match sd with
  | NoDirs => []
  | ConsDir name d rest =>
      (if not_excluded name then os_walk (os_path.join top name) d else [])
        ++ walk_subdirs top rest
  end.

(** The body of [for filename in filenames]. *)
Definition visit_file (dirpath : str) (files_by_lang : dict (list FileRecord))
    (f : File) : dict (list FileRecord) :=
  let filename := f_name f in
  let ext := lower (snd (os_path.splitext filename)) in
  match ext_to_lang lower !! ext with
  | None => files_by_lang                       (* not a supported language *)
  | Some lang =>
      if bool_decide (filename = script_name) then files_by_lang
      else
        match f_read f with
        | ReadOk content =>
            bucket_append lang (mkRecord filename dirpath content) files_by_lang
        | ReadFails _ => files_by_lang          (* except Exception: pass *)
        end
  end.

(** The collection loop. *)
Definition collect (tree : Dir) : dict (list FileRecord) :=
  foldl (fun files_by_lang '(dirpath, _, filenames) =>
           foldl (visit_file dirpath) files_by_lang filenames)
        [] (os_walk root_dir tree).

(** The volume loop. *)
Definition compute_volumes (files_by_lang : dict (list FileRecord)) : dict Z :=
  foldl (fun lang_volumes '(lang, files) =>
           dict_set lang (total_chars files) lang_volumes)
        [] files_by_lang.

(** [lang_volumes[l]], the sort key; every [l] sorted is a key of the dict. *)
Definition volume_of (lang_volumes : dict Z) (l : str) : Z :=
  default 0 (dict_get l lang_volumes).

Definition sorted_langs (lang_volumes : dict Z) : list str :=
  sorted_reverse (volume_of lang_volumes) (dict_keys lang_volumes).

(** The helper [create_ascii_box(text, width, double_line)]. *)
Definition create_ascii_box (text : str) (width : Z) (double_line : bool) : str :=
  let '(top_char, bottom_char, horiz, vert, top_right, bottom_right) :=
    if double_line
    then (9556%N, 9562%N, 9552%N, 9553%N, 9559%N, 9565%N)   (* ╔ ╚ ═ ║ ╗ ╝ *)
    else (9484%N, 9492%N, 9472%N, 9474%N, 9488%N, 9496%N)   (* ┌ └ ─ │ ┐ ┘ *)
  in
  let text := upper text in
  let padding := width - len text - 2 in
  let left_pad := padding `div` 2 in
  let right_pad := padding - left_pad in
  let top := [top_char] ++ str_mul horiz (width - 2) ++ [top_right] ++ [newline] in
  let middle := [vert] ++ str_mul space left_pad ++ text
                  ++ str_mul space right_pad ++ [vert] ++ [newline] in
  let bottom := [bottom_char] ++ str_mul horiz (width - 2) ++ [bottom_right] ++ [newline] in
  top ++ middle ++ bottom.

(** [outfile.write(s)]: the whole argument is encoded before anything of it
    reaches the file, so a write either adds its argument or raises and adds
    nothing; after a raise nothing more of the block is executed. *)
Definition write (outfile : Outfile) (s : str) : Outfile :=
  match write_error outfile with
  | Some _ => outfile
  | None =>
      if encodable s then mkOutfile (written outfile ++ s) None
      else mkOutfile (written outfile) (Some s)
  end.

(** The body of [for filename, dirpath, content in files_by_lang[lang]]. *)
Definition write_file (lang : str) (outfile : Outfile) (r : FileRecord) : Outfile :=
  let outfile := write outfile (r_filename r ++ [newline]) in
  let outfile := write outfile (r_dirpath r ++ [newline]) in
  let outfile := write outfile (py "```" ++ lower lang ++ [newline]) in
  let outfile := write outfile (r_content r) in
  let outfile := write outfile ([newline] ++ py "```" ++ [newline; newline]) in
  write outfile (str_mul dash 80 ++ [newline; newline]).

(** The body of [for lang in sorted_langs]. *)
Definition write_lang (files_by_lang : dict (list FileRecord))
    (outfile : Outfile) (lang : str) : Outfile :=
  let outfile := write outfile (create_ascii_box lang 40 true) in
  let outfile := foldl (write_file lang) outfile (bucket_of lang files_by_lang) in
  write outfile [newline; newline].

(** The body of the [with open(output_path, 'w')] block, on the file just
    opened and truncated. *)
Definition render (langs : list str) (files_by_lang : dict (list FileRecord)) : Outfile :=
  let outfile := mkOutfile [] None in
  let outfile := write outfile (create_ascii_box (py "Project Codebase Overview") 40 false) in
  let outfile := write outfile
                   (py "# " ++ project_name ++ py " Codebase Manifest" ++ [newline; newline]) in
  let separator_width := 40 in
  let outfile := write outfile (str_mul 9552%N separator_width ++ [newline; newline]) in
  foldl (write_lang files_by_lang) outfile langs.

(** The report's path names a directory: the root lists a subdirectory of
    the report's name, and [open] raises [IsADirectoryError]. *)
Definition report_is_directory (tree : Dir) : bool :=
  match tree with
  | MkDir _ subdirs => bool_decide (In output_filename (dirnames_of subdirs))
  end.

Definition generate_codebase_markdown (tree : Dir) : RunResult :=
  let files_by_lang := collect tree in
  let lang_volumes := compute_volumes files_by_lang in
  let langs := sorted_langs lang_volumes in
  if open_fails || report_is_directory tree then
    {| out_path := output_path; out_document := None;
       out_stdout := []; out_raised := Some OpenRaised; out_print_raised := false |}
  else
    let outfile := render langs files_by_lang in
    match write_error outfile with
    | Some s =>
        {| out_path := output_path; out_document := Some (written outfile);
           out_stdout := []; out_raised := Some (WriteRaised s);
           out_print_raised := false |}
    | None =>
        if print_fails then
          {| out_path := output_path; out_document := Some (written outfile);
             out_stdout := []; out_raised := None; out_print_raised := true |}
        else
          {| out_path := output_path; out_document := Some (written outfile);
             out_stdout := py "Success: '" ++ output_filename
                             ++ py "' generated in workspace root: " ++ root_dir
                             ++ [newline];
             out_raised := None; out_print_raised := false |}
    end.
End Script.

(** The matching fact about [str.upper]: on ASCII text it raises the letters
    a-z and keeps every other character. *)
Definition uppers_ascii (upper : str -> str) : Prop :=
  forall s, is_ascii s -> upper s = ascii_upper s.

(** ** Reading a text as lines

    The newline-terminated lines of a text, each without its newline (what
    [s.split('\n')] returns, minus the part after the last newline). *)

Fixpoint lines_from (cur : str) (s : str) : list str :=
  match s with
  | [] => []
  | c :: s' =>
      if N.eqb c newline then rev cur :: lines_from [] s'
      else lines_from (c :: cur) s'
  end.

Definition lines (s : str) : list str := lines_from [] s.

(** ** Vocabulary of the specification

    The files below the root, each with the names of the directories on the
    way from the root to it, enumerated without any pruning; and the four
    conditions under which the specification promises a file a place in the
    report. *)

Record Located := mkLocated {
  e_ancestors : list str;   (* directory names from the root down *)
  e_dirpath : str;          (* the path of the containing directory *)
  e_file : File
}.

Fixpoint all_files (anc : list str) (top : str) (d : Dir) : list Located :=
  match d with
  | MkDir files subdirs =>
      List.map (mkLocated anc top) files ++ all_files_sub anc top subdirs
  end
with all_files_sub (anc : list str) (top : str) (sd : Subdirs) : list Located :=
  match sd with
  | NoDirs => []
  | ConsDir name d rest =>
      all_files (anc ++ [name]) (os_path.join top name) d
        ++ all_files_sub anc top rest
  end.

Definition under_excluded (anc : list str) : bool :=
  existsb (fun d => bool_decide (d ∈ exclude_dirs)) anc.

Definition readable (f : File) : bool :=
  match f_read f with ReadOk _ => true | ReadFails _ => false end.

Definition content_of (f : File) : str :=
  match f_read f with ReadOk content => content | ReadFails _ => [] end.

Section Vocabulary.
Variable lower : str -> str.
Variable script_name : str.

(** The lower-cased extension of a file name. *)
Definition extension (filename : str) : str :=
  lower (snd (os_path.splitext filename)).

Definition recognized (filename : str) : bool :=
  bool_decide (is_Some (ext_to_lang lower !! extension filename)).

Definition eligible (e : Located) : bool :=
  recognized (f_name (e_file e))
  && negb (under_excluded (e_ancestors e))
  && negb (bool_decide (f_name (e_file e) = script_name))
  && readable (e_file e).

Definition entry_record (e : Located) : FileRecord :=
  mkRecord (f_name (e_file e)) (e_dirpath e) (content_of (e_file e)).

(** The language sections of the report, in the order they are written:
    the labels of [sorted_langs] with the bucket the renderer reads for
    each. *)
Definition sections (root_dir : str) (tree : Dir) : list (str * list FileRecord) :=
  let files_by_lang := collect lower root_dir script_name tree in
  List.map (fun lang => (lang, bucket_of lang files_by_lang))
    (sorted_langs (compute_volumes files_by_lang)).
End Vocabulary.

(** ** The grammar of the report, in the words of the specification

    One entry per record: the file name, the containing directory path, the
    content inside a fence tagged with the lower-cased label, a line of 80
    dashes.  One section per label: the double-line banner, the entries, two
    blank lines.  The preamble: the banner, the heading, the separator. *)

Section Grammar.
Variables lower upper : str -> str.

Definition fence : str := py "```".

Definition entry_text (lang : str) (r : FileRecord) : str :=
  r_filename r ++ [newline]
    ++ r_dirpath r ++ [newline]
    ++ fence ++ lower lang ++ [newline]
    ++ r_content r
    ++ [newline] ++ fence ++ [newline] ++ [newline]
    ++ repeat dash 80 ++ [newline] ++ [newline].

Definition section_text (sec : str * list FileRecord) : str :=
  create_ascii_box upper (fst sec) 40 true
    ++ flat_map (entry_text (fst sec)) (snd sec)
    ++ [newline; newline].

Definition preamble (root_dir : str) : str :=
  create_ascii_box upper (py "Project Codebase Overview") 40 false
    ++ py "# " ++ os_path.basename root_dir ++ py " Codebase Manifest"
    ++ [newline; newline]
    ++ repeat 9552%N 40 ++ [newline; newline].

(** The same grammar as the sequence of texts handed to [outfile.write], one
    element per call. *)
Definition entry_writes (lang : str) (r : FileRecord) : list str :=
  [ r_filename r ++ [newline];
    r_dirpath r ++ [newline];
    fence ++ lower lang ++ [newline];
    r_content r;
    [newline] ++ fence ++ [newline; newline];
    repeat dash 80 ++ [newline; newline] ].

Definition section_writes (sec : str * list FileRecord) : list str :=
  [create_ascii_box upper (fst sec) 40 true]
    ++ flat_map (entry_writes (fst sec)) (snd sec)
    ++ [[newline; newline]].

Definition preamble_writes (root_dir : str) : list str :=
  [ create_ascii_box upper (py "Project Codebase Overview") 40 false;
    py "# " ++ os_path.basename root_dir ++ py " Codebase Manifest" ++ [newline; newline];
    repeat 9552%N 40 ++ [newline; newline] ].

Definition report_writes (root_dir : str) (secs : list (str * list FileRecord)) : list str :=
  preamble_writes root_dir ++ flat_map section_writes secs.

(** The writes that go through: those before the first one that cannot be
    encoded. *)
Fixpoint accepted_writes (writes : list str) : list str :=
  match writes with
  | [] => []
  | s :: rest => if encodable s then s :: accepted_writes rest else []
  end.
End Grammar.

(** ** The appends of a run, as a list

    What [visit_file] does to the buckets is one [bucket_append] or nothing;
    the run's appends, in order, form its trace. *)

Section Trace.
Variable lower : str -> str.
Variable script_name : str.

Definition classify (dirpath : str) (f : File) : option (str * FileRecord) :=
  match ext_to_lang lower !! extension lower (f_name f) with
  | None => None
  | Some lang =>
      if bool_decide (f_name f = script_name) then None
      else match f_read f with
           | ReadOk content => Some (lang, mkRecord (f_name f) dirpath content)
           | ReadFails _ => None
           end
  end.

Definition appends_of (visits : list (str * list str * list File))
  : list (str * FileRecord) :=
  flat_map (fun '(dirpath, _, filenames) =>
              flat_map (fun f => option_list (classify dirpath f)) filenames)
           visits.

Definition append_all (xs : list (str * FileRecord)) (d : dict (list FileRecord))
  : dict (list FileRecord) :=
  foldl (fun d '(lang, r) => bucket_append lang r d) d xs.

(** The label a recognized file name is filed under. *)
Definition lang_of (filename : str) : str :=
  match ext_to_lang lower !! extension lower filename with
  | Some lang => lang
  | None => []
  end.
End Trace.

(** [a] comes before [b] in [l]. *)
Definition precedes {A : Type} (a b : A) (l : list A) : Prop :=
  exists l1 l2 l3, l = l1 ++ a :: l2 ++ b :: l3.

(** ** Trees to compare a run with

    [keep_files keep] drops, in every directory, the files [keep] rejects;
    [erase_excluded] empties every subdirectory whose name is excluded;
    [all_dirs] enumerates the directories of the unpruned tree with the
    names on the way from the root;
    [after_run] is the tree once a run has written its report into the root:
    a file of that name is overwritten where it is listed, a new one is
    listed at any position [pos]; a run that could not open the report
    leaves the tree as it is. *)

Fixpoint keep_files (keep : File -> bool) (d : Dir) : Dir :=
  match d with
  | MkDir files subdirs => MkDir (List.filter keep files) (keep_files_sub keep subdirs)
  end
with keep_files_sub (keep : File -> bool) (sd : Subdirs) : Subdirs :=
  match sd with
  | NoDirs => NoDirs
  | ConsDir name d rest => ConsDir name (keep_files keep d) (keep_files_sub keep rest)
  end.

Fixpoint erase_excluded (d : Dir) : Dir :=
  match d with
  | MkDir files subdirs => MkDir files (erase_excluded_sub subdirs)
  end
with erase_excluded_sub (sd : Subdirs) : Subdirs :=
  match sd with
  | NoDirs => NoDirs
  | ConsDir name d rest =>
      ConsDir name
        (if bool_decide (name ∈ exclude_dirs) then MkDir [] NoDirs else erase_excluded d)
        (erase_excluded_sub rest)
  end.

Fixpoint all_dirs (anc : list str) (top : str) (d : Dir) : list (list str * str) :=
  match d with
  | MkDir _ subdirs => (anc, top) :: all_dirs_sub anc top subdirs
  end
with all_dirs_sub (anc : list str) (top : str) (sd : Subdirs) : list (list str * str) :=
  match sd with
  | NoDirs => []
  | ConsDir name d rest =>
      all_dirs (anc ++ [name]) (os_path.join top name) d ++ all_dirs_sub anc top rest
  end.

Definition named (filename : str) (f : File) : bool :=
  bool_decide (f_name f = filename).

Definition after_run (pos : nat) (result : RunResult) (filename : str) (tree : Dir) : Dir :=
  match out_document result with
  | None => tree
  | Some document =>
      match tree with
      | MkDir files subdirs =>
          let report := mkFile filename (ReadOk document) in
          MkDir (if existsb (named filename) files
                 then List.map (fun f => if named filename f then report else f) files
                 else firstn pos files ++ [report] ++ skipn pos files)
                subdirs
      end
  end.

(** ** A small tree to run the model on

    [/home/u/proj] holds [main.py], [app.js], [image.png], the script itself
    and a report left by an earlier run; [node_modules/lib.js] is below an
    excluded directory; [sub/a.H] is a header and [sub/b.c] cannot be read. *)

Definition demo_root : str := py "/home/u/proj".
Definition demo_script : str := py "search_copy.py".

Definition demo_tree : Dir :=
  MkDir
    [ mkFile (py "main.py") (ReadOk (py "print(1)"));
      mkFile (py "app.js") (ReadOk (py "x"));
      mkFile (py "image.png") (ReadOk (py "zz"));
      mkFile (py "util.py") (ReadOk (py "pass"));
      mkFile (py "search_copy.py") (ReadOk (py "self"));
      mkFile (py "proj.codebase.md") (ReadOk (py "old report")) ]
    (ConsDir (py "node_modules")
       (MkDir [ mkFile (py "lib.js") (ReadOk (py "yyyyyyyyyyyyyyyyyyyyyyyyyyyyyyyyy")) ] NoDirs)
    (ConsDir (py "sub")
       (MkDir [ mkFile (py "a.H") (ReadOk (py "hdr"));
                mkFile (py "b.c") (ReadFails PermissionDenied) ] NoDirs)
     NoDirs)).

(** A name as [os.walk] returns it for a file whose name holds the byte
    [0xFF]: the byte comes back as the lone surrogate U+DCFF. *)
Definition odd_name : str := py "a" ++ [56575%N] ++ py ".py".

(** Two readable Python files, the first with such a name. *)
Definition odd_tree : Dir :=
  MkDir [ mkFile odd_name (ReadOk (py "x")); mkFile (py "b.py") (ReadOk (py "y")) ] NoDirs.

(** Three readable Python files, the second with such a name, the third a
    thousand characters long. *)
Definition cut_tree : Dir :=
  MkDir [ mkFile (py "main.py") (ReadOk (py "m"));
          mkFile odd_name (ReadOk (py "x"));
          mkFile (py "util.py") (ReadOk (repeat 120%N 1000)) ] NoDirs.

(** A directory of readable files, from literals. *)
Definition one_dir (files : list (string * string)) (subdirs : Subdirs) : Dir :=
  MkDir (List.map (fun '(n, c) => mkFile (py n) (ReadOk (py c))) files) subdirs.

(** The sections of a run of the script installed as [/w/search_copy.py]. *)
Definition run_sections (tree : Dir) : list (str * list FileRecord) :=
  sections ascii_lower (py "search_copy.py") (py "/w") tree.

Scheme Dir_mut := Induction for Dir Sort Prop
  with Subdirs_mut := Induction for Subdirs Sort Prop.
Combined Scheme Dir_Subdirs_ind from Dir_mut, Subdirs_mut.

(** * debugger.py: fix_project_structure

    The companion script moves the [.rs] files found in the working
    directory into [src/], leaving [build.rs] where it is, and returns the
    text it adds to the log.  What the outside world answers is part of the
    input: whether [src] exists, whether [os.makedirs] raises, the names
    [glob.glob("*.rs")] returns and, for each name, what
    [shutil.move(file, dest)] does when the loop reaches it ([str(e)] is the
    message of the exception).  The calls made to [shutil.move] are recorded
    beside the text returned. *)

Module debugger.

Inductive MoveOutcome :=
| Moved
| MoveFails (message : str).

Record StructureEnv := mkEnv {
  src_exists : bool;
  makedirs_error : option str;
  rs_files : list (str * MoveOutcome)
}.

Record StructureRun := mkStructureRun {
  log_entry : str;
  created_src : bool;
  move_calls : list (str * str);
  moved_files : list str
}.

(** [str(n)] for a length. *)
Definition str_of_nat (n : nat) : str :=
  py (NilEmpty.string_of_uint (Nat.to_uint n)).

(** [sep.join(l)]. *)
Fixpoint str_join (sep : str) (l : list str) : str :=
  match l with
  | [] => []
  | [x] => x
  | x :: l' => x ++ sep ++ str_join sep l'
  end.

(** The body of [for file in rs_files], on the log text, the calls made and
    [moved_files]. *)
Definition move_step (st : str * list (str * str) * list str)
    (entry : str * MoveOutcome) : str * list (str * str) * list str :=
  let '(log_entry, calls, moved_files) := st in
  let '(file, outcome) := entry in
  if bool_decide (file = py "build.rs") then st
  else
    let dest := os_path.join (py "src") file in
    match outcome with
    | Moved => (log_entry, calls ++ [(file, dest)], moved_files ++ [file])
    | MoveFails e =>
        (log_entry ++ py "Failed to move " ++ file ++ py ": " ++ e ++ [newline],
         calls ++ [(file, dest)], moved_files)
    end.

(** The function: [inl e] when [os.makedirs], the one call outside a [try],
    raises; otherwise the text returned with the calls made. *)
Definition fix_project_structure (env : StructureEnv) : str + StructureRun :=
  let log_entry := [newline] ++ py "=== Project Structure Fix ===" ++ [newline] in
  let prepared :=
    if src_exists env then inr (log_entry, false)
    else match makedirs_error env with
         | Some e => inl e
         | None => inr (log_entry ++ py "Created src/ directory." ++ [newline], true)
         end in
  match prepared with
  | inl e => inl e
  | inr (log_entry, created) =>
      let '(log_entry, calls, moved_files) :=
        foldl move_step (log_entry, [], []) (rs_files env) in
      let log_entry :=
        match moved_files with
        | _ :: _ =>
            log_entry ++ py "Moved " ++ str_of_nat (length moved_files)
              ++ py " files to src/: " ++ str_join (py ", ") moved_files ++ [newline]
        | [] => log_entry ++ py "No .rs files found in root to move." ++ [newline]
        end in
      inr (mkStructureRun log_entry created calls moved_files)
  end.

(** What the specification of the loop speaks of: the file is not the build
    script; its move succeeds; the line logged for it. *)
Definition movable (entry : str * MoveOutcome) : bool :=
  negb (bool_decide (fst entry = py "build.rs")).

Definition move_succeeds (entry : str * MoveOutcome) : bool :=
  movable entry && match snd entry with Moved => true | MoveFails _ => false end.

Definition failure_line (entry : str * MoveOutcome) : str :=
  if movable entry then
    match snd entry with
    | Moved => []
    | MoveFails e => py "Failed to move " ++ fst entry ++ py ": " ++ e ++ [newline]
    end
  else [].

(** Three sources in the working directory, one of which cannot be moved. *)
Definition demo_env : StructureEnv :=
  mkEnv false None
    [ (py "main.rs", Moved);
      (py "build.rs", Moved);
      (py "gpu.rs", MoveFails (py "Permission denied"));
      (py "lib.rs", Moved) ].

End debugger.

(** * Properties *)


(** ** The extension registry *)

Section RegistryFacts.
Variable lower : str -> str.

Lemma in_map_cons_cases (e : str) (exts : list str) (k : str) :
  In k (List.map lower (e :: exts)) ->
  In k (List.map lower exts) \/ (lower e = k /\ ~ In k (List.map lower exts)).
Proof.
  intros Hin. destruct (In_dec (fun a b : str => decide (a = b)) k (List.map lower exts)) as [H|H].
  - left; exact H.
  - right. split; [|exact H]. destruct Hin as [Heq|Hin]; [exact Heq|contradiction].
Qed.

Lemma register_exts_claimed (lang : str) (exts : list str) (m : gmap str str) (k : str) :
  In k (List.map lower exts) -> register_exts lower lang exts m !! k = Some lang.
Proof.
  unfold register_exts. revert m.
  induction exts as [|e exts IH]; intros m Hin; simpl in *; [contradiction|].
  destruct (in_map_cons_cases e exts k Hin) as [Hlater|[Heq Hnot]].
  - apply IH, Hlater.
  - clear IH Hin. subst k.
    assert (Hkeep : forall m' : gmap str str,
               m' !! lower e = Some lang ->
               foldl (fun m ext => <[lower ext := lang]> m) m' exts !! lower e = Some lang).
    { clear Hnot. induction exts as [|e' exts IH]; intros m' Hm'; simpl; [exact Hm'|].
      apply IH. destruct (decide (lower e' = lower e)) as [->|Hne].
      - apply lookup_insert_eq.
      - rewrite lookup_insert_ne; assumption. }
    apply Hkeep, lookup_insert_eq.
Qed.

Lemma register_exts_unclaimed (lang : str) (exts : list str) (m : gmap str str) (k : str) :
  ~ In k (List.map lower exts) -> register_exts lower lang exts m !! k = m !! k.
Proof.
  unfold register_exts. revert m.
  induction exts as [|e exts IH]; intros m Hnin; simpl in *; [reflexivity|].
  rewrite IH by tauto. apply lookup_insert_ne. tauto.
Qed.

(** Declarations that do not claim [k] leave its entry alone. *)
Lemma invert_loop_unclaimed (decls : list (str * list str)) (m : gmap str str) (k : str) :
  (forall l es, In (l, es) decls -> ~ In k (List.map lower es)) ->
  foldl (fun m '(lang, exts) => register_exts lower lang exts m) m decls !! k
  = m !! k.
Proof.
  revert m. induction decls as [|[l es] decls IH]; intros m Hun; simpl.
  - reflexivity.
  - rewrite IH by (intros l' es' Hin; apply (Hun l' es'); right; exact Hin).
    apply register_exts_unclaimed. apply (Hun l es). left; reflexivity.
Qed.

Lemma invert_loop_app (decls1 decls2 : list (str * list str)) (m : gmap str str) :
  foldl (fun m '(lang, exts) => register_exts lower lang exts m) m (decls1 ++ decls2)
  = foldl (fun m '(lang, exts) => register_exts lower lang exts m)
      (foldl (fun m '(lang, exts) => register_exts lower lang exts m) m decls1) decls2.
Proof. apply foldl_app. Qed.

(** The registry depends on [lower] only through the declared extensions. *)
Lemma invert_ext (lower' : str -> str) (decls : list (str * list str)) :
  (forall l es e, In (l, es) decls -> In e es -> lower e = lower' e) ->
  invert lower decls = invert lower' decls.
Proof.
  unfold invert. generalize (∅ : gmap str str).
  induction decls as [|[l es] decls IH]; intros m Hag; simpl; [reflexivity|].
  rewrite IH by (intros l' es' e Hin; apply (Hag l' es' e); right; exact Hin).
  f_equal.
  assert (Hes : forall e, In e es -> lower e = lower' e)
    by (intros e He; apply (Hag l es e); [left; reflexivity|exact He]).
  clear -Hes. unfold register_exts. revert m.
  induction es as [|e es IHes]; intros m; simpl; [reflexivity|].
  rewrite (Hes e) by (left; reflexivity).
  apply IHes. intros e' He'. apply Hes. right; exact He'.
Qed.
End RegistryFacts.

Lemma lang_extensions_ascii (l : str) (es : list str) (e : str) :
  In (l, es) lang_extensions -> In e es -> is_ascii e.
Proof.
  intros Hl He.
  assert (Hall : Forall (fun d => Forall is_ascii (snd d)) lang_extensions).
  { unfold is_ascii. repeat (constructor; try (vm_compute; reflexivity)). }
  rewrite List.Forall_forall in Hall. specialize (Hall _ Hl). simpl in Hall.
  rewrite List.Forall_forall in Hall. apply Hall, He.
Qed.

(** With any [lower] that is right on ASCII, the registry is the one computed
    with the ASCII lowering. *)
Lemma ext_to_lang_ascii lower :
  lowers_ascii lower -> ext_to_lang lower = ext_to_lang ascii_lower.
Proof.
  intros Hlow. unfold ext_to_lang. apply invert_ext.
  intros l es e Hl He. apply Hlow. eapply lang_extensions_ascii; eassumption.
Qed.

Lemma ascii_lower_lowers_ascii : lowers_ascii ascii_lower.
Proof. intros s _. reflexivity. Qed.

(** C2, as stated, fails: the first declaration that claims [".h"] is the
    one of C++, and the lookup built by the script answers C, not C++ (the
    registry is computed here with the ASCII lowering, which is [str.lower]
    on the declared extensions). *)
Lemma h_extension_not_first_writer :
  option_map fst
    (List.find (fun decl => bool_decide (In (py ".h") (List.map ascii_lower (snd decl))))
       lang_extensions) = Some (py "C++")
  /\ ext_to_lang ascii_lower !! py ".h" = Some (py "C")
  /\ ext_to_lang ascii_lower !! py ".h" <> Some (py "C++").
Proof. split; [|split]; vm_compute; [reflexivity|reflexivity|discriminate]. Qed.

(** C2, amended: the inversion loop assigns [ext_to_lang[ext.lower()] = lang]
    unconditionally, so an extension claimed by several labels resolves to
    the label declared last (last writer wins): a declaration followed only
    by declarations that do not claim the extension owns it.  In particular
    [".h"], declared by C++ and then by C, maps to the C label. *)
Theorem ext_to_lang_last_writer_wins (lower : str -> str) :
  (forall (decls1 : list (str * list str)) (lang : str) (exts : list str)
          (decls2 : list (str * list str)) (e : str),
      In e exts ->
      (forall l es, In (l, es) decls2 -> ~ In (lower e) (List.map lower es)) ->
      invert lower (decls1 ++ (lang, exts) :: decls2) !! lower e = Some lang)
  /\ (lowers_ascii lower -> ext_to_lang lower !! py ".h" = Some (py "C")).
Proof.
  split.
  - intros decls1 lang exts decls2 e He Hlater. unfold invert.
    rewrite invert_loop_app. simpl.
    rewrite invert_loop_unclaimed by exact Hlater.
    apply register_exts_claimed, in_map, He.
  - intros Hlow. rewrite (ext_to_lang_ascii lower Hlow). vm_compute. reflexivity.
Qed.

Lemma ext_to_lang_last_writer_wins_witness :
  invert ascii_lower ([(py "C++", [py ".hh"; py ".H"])] ++ (py "C", [py ".c"; py ".h"]) :: [(py "Go", [py ".go"])])
    !! ascii_lower (py ".h") = Some (py "C")
  /\ ext_to_lang ascii_lower !! py ".h" = Some (py "C").
Proof.
  destruct (ext_to_lang_last_writer_wins ascii_lower) as [Hgen Hh].
  split.
  - apply Hgen.
    + right; left; reflexivity.
    + intros l es [Heq|[]]. inversion Heq; subst. vm_compute.
      intros [Habs|[]]. discriminate Habs.
  - apply Hh. intros s _. reflexivity.
Defined.

(** From here on the two tables are constants: proofs reason about them
    through lemmas (and by evaluation), never by simplification. *)
Opaque ext_to_lang exclude_dirs.
Arguments os_path.splitext : simpl never.
Arguments os_path.join : simpl never.
Arguments os_path.basename : simpl never.

(** ** The framed banner *)

Lemma len_app (a b : str) : len (a ++ b) = len a + len b.
Proof. unfold len. rewrite length_app. lia. Qed.

Lemma len_str_mul (c : char) (n : Z) : 0 <= n -> len (str_mul c n) = n.
Proof. intros Hn. unfold len, str_mul. rewrite repeat_length. lia. Qed.

Lemma in_str_mul (c x : char) (n : Z) : In x (str_mul c n) -> x = c.
Proof. unfold str_mul. intros H. eapply repeat_spec, H. Qed.

(** A newline-free run followed by a newline is one line. *)
Lemma lines_from_line (l cur rest : str) :
  ~ In newline l ->
  lines_from cur (l ++ newline :: rest) = (rev cur ++ l) :: lines_from [] rest.
Proof.
  revert cur. induction l as [|c l IH]; intros cur Hnl; simpl.
  - rewrite app_nil_r. reflexivity.
  - destruct (N.eqb_spec c newline) as [->|Hc].
    + exfalso. apply Hnl. left; reflexivity.
    + rewrite IH by (intros Hin; apply Hnl; right; exact Hin).
      simpl. rewrite <- app_assoc. reflexivity.
Qed.

Lemma lines_three (a b c : str) :
  ~ In newline a -> ~ In newline b -> ~ In newline c ->
  lines (a ++ [newline] ++ b ++ [newline] ++ c ++ [newline]) = [a; b; c].
Proof.
  intros Ha Hb Hc. unfold lines. simpl.
  rewrite (lines_from_line a [] _ Ha). simpl.
  rewrite (lines_from_line b [] _ Hb). simpl.
  rewrite (lines_from_line c [] _ Hc). reflexivity.
Qed.

(** C9, as stated, fails: a text may itself hold a newline.  For the
    one-character text of a newline (which [str.upper] leaves as it is) and
    the default width 40, the hypothesis holds and the result has four
    newline-terminated lines, of 40, 19, 20 and 40 characters. *)
Lemma create_ascii_box_newline_text :
  len (ascii_upper [newline]) <= 40 - 2
  /\ List.map len (lines (create_ascii_box ascii_upper [newline] 40 false))
     = [40; 19; 20; 40].
Proof. split; vm_compute; [discriminate|reflexivity]. Qed.

(** C9, amended: for every text whose upper-cased form has length at most
    [width - 2] and holds no newline character, [create_ascii_box] returns
    exactly three newline-terminated lines, each exactly [width] characters
    long before its newline; the middle line is the vertical border, the
    left padding, the upper-cased text, the right padding and the border
    again, with the left padding equal to or one less than the right one. *)
Theorem create_ascii_box_three_lines
    (upper : str -> str) (text : str) (width : Z) (double_line : bool) :
  len (upper text) <= width - 2 ->
  ~ In newline (upper text) ->
  exists top middle bottom left_pad right_pad,
    create_ascii_box upper text width double_line
      = top ++ [newline] ++ middle ++ [newline] ++ bottom ++ [newline]
    /\ lines (create_ascii_box upper text width double_line) = [top; middle; bottom]
    /\ len top = width /\ len middle = width /\ len bottom = width
    /\ middle = [if double_line then 9553%N else 9474%N]
                  ++ str_mul space left_pad ++ upper text
                  ++ str_mul space right_pad
                  ++ [if double_line then 9553%N else 9474%N]
    /\ 0 <= left_pad
    /\ (left_pad = right_pad \/ left_pad + 1 = right_pad).
Proof.
  intros Hlen Hnl.
  assert (Hlen0 : 0 <= len (upper text)) by (unfold len; lia).
  set (padding := width - len (upper text) - 2).
  set (left_pad := padding `div` 2).
  set (right_pad := padding - left_pad).
  assert (Hpad : 0 <= padding) by (unfold padding; lia).
  assert (Hleft : 0 <= left_pad) by (apply Z.div_pos; lia).
  assert (Hdiv : padding = 2 * left_pad + padding `mod` 2)
    by (apply Z.div_mod; lia).
  assert (Hmod : 0 <= padding `mod` 2 < 2) by (apply Z.mod_pos_bound; lia).
  assert (Hright : left_pad = right_pad \/ left_pad + 1 = right_pad)
    by (unfold right_pad; lia).
  assert (Hright0 : 0 <= right_pad) by lia.
  set (tl := if double_line then 9556%N else 9484%N).
  set (tr := if double_line then 9559%N else 9488%N).
  set (bl := if double_line then 9562%N else 9492%N).
  set (br := if double_line then 9565%N else 9496%N).
  set (hz := if double_line then 9552%N else 9472%N).
  set (vt := if double_line then 9553%N else 9474%N).
  assert (Hhz : hz <> newline) by (unfold hz, newline; destruct double_line; discriminate).
  assert (Hvt : vt <> newline) by (unfold vt, newline; destruct double_line; discriminate).
  assert (Htl : tl <> newline) by (unfold tl, newline; destruct double_line; discriminate).
  assert (Htr : tr <> newline) by (unfold tr, newline; destruct double_line; discriminate).
  assert (Hbl : bl <> newline) by (unfold bl, newline; destruct double_line; discriminate).
  assert (Hbr : br <> newline) by (unfold br, newline; destruct double_line; discriminate).
  set (top := [tl] ++ str_mul hz (width - 2) ++ [tr]).
  set (middle := [vt] ++ str_mul space left_pad ++ upper text
                   ++ str_mul space right_pad ++ [vt]).
  set (bottom := [bl] ++ str_mul hz (width - 2) ++ [br]).
  assert (Hbox : create_ascii_box upper text width double_line
                 = top ++ [newline] ++ middle ++ [newline] ++ bottom ++ [newline]).
  { unfold create_ascii_box, top, middle, bottom, tl, tr, bl, br, hz, vt,
      left_pad, right_pad, padding.
    destruct double_line; cbv zeta; rewrite <- ?app_assoc; reflexivity. }
  assert (Hsp : space <> newline) by (unfold space, newline; discriminate).
  assert (Htop_nl : ~ In newline top).
  { unfold top. rewrite !in_app_iff. simpl.
    intros [[H|[]]|[H|[H|[]]]]; try congruence.
    apply in_str_mul in H. congruence. }
  assert (Hbot_nl : ~ In newline bottom).
  { unfold bottom. rewrite !in_app_iff. simpl.
    intros [[H|[]]|[H|[H|[]]]]; try congruence.
    apply in_str_mul in H. congruence. }
  assert (Hmid_nl : ~ In newline middle).
  { unfold middle. rewrite !in_app_iff. simpl.
    intros [[H|[]]|[H|[H|[H|[H|[]]]]]]; try congruence; try contradiction;
      apply in_str_mul in H; congruence. }
  exists top, middle, bottom, left_pad, right_pad.
  split; [exact Hbox|].
  split; [rewrite Hbox; apply lines_three; assumption|].
  split; [unfold top; rewrite !len_app, len_str_mul by lia; unfold len; simpl; lia|].
  split; [unfold middle; rewrite !len_app, !len_str_mul by lia;
          unfold len, right_pad, padding; simpl; unfold len; lia|].
  split; [unfold bottom; rewrite !len_app, len_str_mul by lia; unfold len; simpl; lia|].
  split; [reflexivity|].
  split; assumption.
Qed.

Lemma create_ascii_box_three_lines_witness :
  exists top middle bottom left_pad right_pad,
    create_ascii_box ascii_upper (py "Rust") 11 true
      = top ++ [newline] ++ middle ++ [newline] ++ bottom ++ [newline]
    /\ lines (create_ascii_box ascii_upper (py "Rust") 11 true) = [top; middle; bottom]
    /\ len top = 11 /\ len middle = 11 /\ len bottom = 11
    /\ middle = [9553%N] ++ str_mul space left_pad ++ ascii_upper (py "Rust")
                  ++ str_mul space right_pad ++ [9553%N]
    /\ 0 <= left_pad
    /\ (left_pad = right_pad \/ left_pad + 1 = right_pad).
Proof.
  apply (create_ascii_box_three_lines ascii_upper (py "Rust") 11 true).
  - vm_compute. discriminate.
  - vm_compute. intros [H|[H|[H|[H|[]]]]]; discriminate H.
Defined.

(** ** The walk and the buckets *)

Section WalkFacts.
Variable lower : str -> str.
Variable script_name : str.

Abbreviation classify := (classify lower script_name).
Abbreviation appends_of := (appends_of lower script_name).
Abbreviation eligible := (eligible lower script_name).
Abbreviation visit_file := (visit_file lower script_name).

Lemma visit_file_classify (dirpath : str) (d : dict (list FileRecord)) (f : File) :
  visit_file dirpath d f = append_all (option_list (classify dirpath f)) d.
Proof.
  unfold visit_file, classify, extension.
  destruct (ext_to_lang lower !! _) as [lang|]; [|reflexivity].
  destruct (bool_decide _); [reflexivity|].
  destruct (f_read f); reflexivity.
Qed.

Lemma append_all_app (xs ys : list (str * FileRecord)) (d : dict (list FileRecord)) :
  append_all (xs ++ ys) d = append_all ys (append_all xs d).
Proof. apply foldl_app. Qed.

Lemma visit_files_appends (dirpath : str) (fs : list File) (d : dict (list FileRecord)) :
  foldl (visit_file dirpath) d fs
  = append_all (flat_map (fun f => option_list (classify dirpath f)) fs) d.
Proof.
  revert d. induction fs as [|f fs IH]; intros d; simpl; [reflexivity|].
  rewrite IH, visit_file_classify, append_all_app. reflexivity.
Qed.

Lemma visits_appends (visits : list (str * list str * list File))
    (d : dict (list FileRecord)) :
  foldl (fun files_by_lang '(dirpath, _, filenames) =>
           foldl (visit_file dirpath) files_by_lang filenames) d visits
  = append_all (appends_of visits) d.
Proof.
  revert d. induction visits as [|[[dirpath dn] fs] visits IH]; intros d; simpl;
    [reflexivity|].
  rewrite IH, visit_files_appends, append_all_app. reflexivity.
Qed.

(** The buckets are the run's trace, appended in order to the empty dict. *)
Lemma collect_trace (root_dir : str) (tree : Dir) :
  collect lower root_dir script_name tree
  = append_all (appends_of (os_walk root_dir tree)) [].
Proof. unfold collect. apply visits_appends. Qed.

Lemma appends_of_app (v1 v2 : list (str * list str * list File)) :
  appends_of (v1 ++ v2) = appends_of v1 ++ appends_of v2.
Proof. unfold appends_of. apply flat_map_app. Qed.

Lemma appends_of_cons (dirpath : str) (dn : list str) (fs : list File)
    (visits : list (str * list str * list File)) :
  appends_of ((dirpath, dn, fs) :: visits)
  = flat_map (fun f => option_list (classify dirpath f)) fs ++ appends_of visits.
Proof. reflexivity. Qed.

(** A file is appended exactly when it is recognized, not named like the
    script and readable; it is filed under the label of its extension. *)
Lemma classify_spec (anc : list str) (dirpath : str) (f : File) :
  under_excluded anc = false ->
  option_list (classify dirpath f)
  = List.map (fun e => (lang_of lower (f_name (e_file e)), entry_record e))
      (List.filter eligible [mkLocated anc dirpath f]).
Proof.
  intros Hanc.
  unfold classify, eligible, recognized, readable, lang_of, entry_record, content_of.
  cbn [List.filter e_file e_ancestors e_dirpath].
  rewrite Hanc.
  destruct (ext_to_lang lower !! extension lower (f_name f)) as [lang|] eqn:Hext.
  - rewrite (bool_decide_true (is_Some (Some lang))) by (eexists; reflexivity).
    destruct (bool_decide (f_name f = script_name)); [reflexivity|].
    destruct (f_read f) as [content|err] eqn:Hread; [|reflexivity].
    cbn [andb negb List.map e_file e_dirpath option_list].
    rewrite Hext, Hread. reflexivity.
  - rewrite (bool_decide_false (is_Some None)) by (intros [x Hx]; discriminate Hx).
    reflexivity.
Qed.

Lemma files_spec (anc : list str) (dirpath : str) (fs : list File) :
  under_excluded anc = false ->
  flat_map (fun f => option_list (classify dirpath f)) fs
  = List.map (fun e => (lang_of lower (f_name (e_file e)), entry_record e))
      (List.filter eligible (List.map (mkLocated anc dirpath) fs)).
Proof.
  intros Hanc. induction fs as [|f fs IH]; [reflexivity|].
  change (List.map (mkLocated anc dirpath) (f :: fs))
    with ([mkLocated anc dirpath f] ++ List.map (mkLocated anc dirpath) fs).
  rewrite List.filter_app, List.map_app, <- IH, <- (classify_spec anc) by exact Hanc.
  reflexivity.
Qed.

Lemma under_excluded_snoc (anc : list str) (name : str) :
  under_excluded (anc ++ [name]) = under_excluded anc || negb (not_excluded name).
Proof.
  unfold under_excluded, not_excluded. rewrite existsb_app. simpl.
  rewrite orb_false_r, negb_involutive. reflexivity.
Qed.

(** Nothing enumerated below an excluded directory is eligible. *)
Lemma excluded_subtree_ineligible :
  (forall (d : Dir) (anc : list str) (top : str),
      under_excluded anc = true -> List.filter eligible (all_files anc top d) = [])
  /\ (forall (sd : Subdirs) (anc : list str) (top : str),
      under_excluded anc = true -> List.filter eligible (all_files_sub anc top sd) = []).
Proof.
  apply Dir_Subdirs_ind.
  - intros fs sd IH anc top Hanc. simpl.
    rewrite List.filter_app, IH by exact Hanc. rewrite app_nil_r.
    induction fs as [|f fs IHfs]; [reflexivity|]. simpl.
    unfold eligible at 1. simpl. rewrite Hanc. simpl.
    rewrite andb_false_r. simpl. exact IHfs.
  - reflexivity.
  - intros name d IHd rest IHrest anc top Hanc. simpl.
    rewrite List.filter_app, IHrest by exact Hanc.
    rewrite IHd; [reflexivity|].
    rewrite under_excluded_snoc, Hanc. reflexivity.
Qed.

(** The trace of the pruned walk is the enumeration of the whole tree,
    filtered by eligibility. *)
Lemma walk_trace_spec :
  (forall (d : Dir) (anc : list str) (top : str),
      under_excluded anc = false ->
      appends_of (os_walk top d)
      = List.map (fun e => (lang_of lower (f_name (e_file e)), entry_record e))
          (List.filter eligible (all_files anc top d)))
  /\ (forall (sd : Subdirs) (anc : list str) (top : str),
      under_excluded anc = false ->
      appends_of (walk_subdirs top sd)
      = List.map (fun e => (lang_of lower (f_name (e_file e)), entry_record e))
          (List.filter eligible (all_files_sub anc top sd))).
Proof.
  apply Dir_Subdirs_ind.
  - intros fs sd IH anc top Hanc. cbn [os_walk all_files].
    rewrite appends_of_cons, List.filter_app, List.map_app.
    rewrite (files_spec anc) by exact Hanc. rewrite (IH anc) by exact Hanc.
    reflexivity.
  - reflexivity.
  - intros name d IHd rest IHrest anc top Hanc. cbn [walk_subdirs all_files_sub].
    rewrite appends_of_app, List.filter_app, List.map_app.
    rewrite (IHrest anc) by exact Hanc. f_equal.
    destruct (not_excluded name) eqn:Hname.
    + apply IHd. rewrite under_excluded_snoc, Hanc, Hname. reflexivity.
    + rewrite (proj1 excluded_subtree_ineligible); [reflexivity|].
      rewrite under_excluded_snoc, Hname. apply orb_true_r.
Qed.
End WalkFacts.

(** ** Insertion-ordered dicts *)

Section DictFacts.
Context {V : Type}.

Lemma dict_set_fresh (k : str) (v : V) (d : dict V) :
  ~ In k (dict_keys d) -> dict_set k v d = d ++ [(k, v)].
Proof.
  induction d as [|[k' v'] d IH]; intros Hk; simpl in *; [reflexivity|].
  rewrite bool_decide_false by tauto. rewrite IH by tauto. reflexivity.
Qed.

Lemma dict_keys_app (d1 d2 : dict V) :
  dict_keys (d1 ++ d2) = dict_keys d1 ++ dict_keys d2.
Proof. apply List.map_app. Qed.

Lemma dict_get_map {W : Type} (f : V -> W) (k : str) (d : dict V) :
  dict_get k (List.map (fun '(l, b) => (l, f b)) d) = option_map f (dict_get k d).
Proof.
  induction d as [|[k' v'] d IH]; simpl; [reflexivity|].
  destruct (bool_decide (k' = k)); [reflexivity|exact IH].
Qed.

Lemma dict_get_None (k : str) (d : dict V) :
  ~ In k (dict_keys d) -> dict_get k d = None.
Proof.
  induction d as [|[k' v'] d IH]; intros Hk; simpl in *; [reflexivity|].
  rewrite bool_decide_false by tauto. apply IH. tauto.
Qed.
End DictFacts.

Section BucketFacts.
Implicit Types (d : dict (list FileRecord)) (xs : list (str * FileRecord)).

Lemma bucket_append_keys (lang : str) (r : FileRecord) d :
  dict_keys (bucket_append lang r d)
  = if bool_decide (In lang (dict_keys d)) then dict_keys d
    else dict_keys d ++ [lang].
Proof.
  induction d as [|[k b] d IH].
  - reflexivity.
  - cbn [bucket_append]. destruct (decide (k = lang)) as [->|Hne].
    + rewrite (bool_decide_true (lang = lang)) by reflexivity.
      rewrite bool_decide_true by (left; reflexivity). reflexivity.
    + rewrite (bool_decide_false (k = lang)) by exact Hne.
      change (dict_keys ((k, b) :: bucket_append lang r d))
        with (k :: dict_keys (bucket_append lang r d)).
      change (dict_keys ((k, b) :: d)) with (k :: dict_keys d).
      rewrite IH.
      destruct (decide (In lang (dict_keys d))) as [Hin|Hnin].
      * rewrite !bool_decide_true by (try right; exact Hin). reflexivity.
      * rewrite (bool_decide_false (In lang (dict_keys d))) by exact Hnin.
        rewrite bool_decide_false by (intros [Heq|Hin]; [exact (Hne Heq)|exact (Hnin Hin)]).
        reflexivity.
Qed.

Lemma bucket_append_read (l lang : str) (r : FileRecord) d :
  bucket_of l (bucket_append lang r d)
  = bucket_of l d ++ (if bool_decide (lang = l) then [r] else []).
Proof.
  unfold bucket_of. induction d as [|[k b] d IH]; simpl.
  - destruct (bool_decide (lang = l)); reflexivity.
  - destruct (decide (k = lang)) as [->|Hne].
    + rewrite (bool_decide_true (lang = lang)) by reflexivity. simpl.
      destruct (bool_decide (lang = l)); simpl; [reflexivity|].
      rewrite app_nil_r. reflexivity.
    + rewrite (bool_decide_false (k = lang)) by exact Hne. simpl.
      destruct (decide (k = l)) as [->|Hkl].
      * rewrite (bool_decide_true (l = l)) by reflexivity.
        rewrite (bool_decide_false (lang = l)) by congruence.
        simpl. rewrite app_nil_r. reflexivity.
      * rewrite (bool_decide_false (k = l)) by exact Hkl. exact IH.
Qed.

Lemma bucket_append_NoDup (lang : str) (r : FileRecord) d :
  List.NoDup (dict_keys d) -> List.NoDup (dict_keys (bucket_append lang r d)).
Proof.
  intros Hnd. rewrite bucket_append_keys.
  destruct (decide (In lang (dict_keys d))) as [Hin|Hnin].
  - rewrite bool_decide_true by exact Hin. exact Hnd.
  - rewrite bool_decide_false by exact Hnin.
    apply List.NoDup_app; [exact Hnd|repeat constructor; simpl; tauto|].
    intros x Hx [<-|[]]. exact (Hnin Hx).
Qed.

Lemma append_all_NoDup xs d :
  List.NoDup (dict_keys d) -> List.NoDup (dict_keys (append_all xs d)).
Proof.
  revert d. induction xs as [|[lang r] xs IH]; intros d Hnd; simpl; [exact Hnd|].
  apply IH, bucket_append_NoDup, Hnd.
Qed.

Lemma append_all_keys xs d (l : str) :
  In l (dict_keys (append_all xs d))
  <-> In l (dict_keys d) \/ In l (List.map fst xs).
Proof.
  revert d. induction xs as [|[lang r] xs IH]; intros d; simpl; [tauto|].
  rewrite IH, bucket_append_keys.
  destruct (decide (In lang (dict_keys d))) as [Hin|Hnin].
  - rewrite bool_decide_true by exact Hin. split; [tauto|].
    intros [H|[<-|H]]; tauto.
  - rewrite bool_decide_false by exact Hnin. rewrite in_app_iff. simpl. tauto.
Qed.

(** A bucket holds, in order, the records of the trace filed under its
    label. *)
Lemma append_all_read xs d (l : str) :
  bucket_of l (append_all xs d)
  = bucket_of l d
      ++ List.map snd (List.filter (fun x => bool_decide (fst x = l)) xs).
Proof.
  revert d. induction xs as [|[lang r] xs IH]; intros d; simpl.
  - rewrite app_nil_r. reflexivity.
  - rewrite IH, bucket_append_read, <- app_assoc. f_equal.
    destruct (bool_decide (lang = l)); reflexivity.
Qed.

Lemma filter_split {A : Type} (p : A -> bool) (l : list A) :
  Permutation (List.filter p l ++ List.filter (fun x => negb (p x)) l) l.
Proof.
  induction l as [|x l IH]; simpl; [constructor|].
  destruct (p x); simpl.
  - constructor. exact IH.
  - apply Permutation_sym, Permutation_cons_app, Permutation_sym, IH.
Qed.

(** Reading the buckets of distinct labels that cover the trace returns
    every appended record once. *)
Lemma grouped_trace_perm (ks : list str) xs :
  List.NoDup ks ->
  (forall x, In x xs -> In (fst x) ks) ->
  Permutation
    (flat_map (fun k => List.map snd (List.filter (fun x => bool_decide (fst x = k)) xs)) ks)
    (List.map snd xs).
Proof.
  revert xs. induction ks as [|k ks IH]; intros xs Hnd Hcov; simpl.
  - destruct xs as [|x xs]; [constructor|]. destruct (Hcov x). left; reflexivity.
  - inversion Hnd as [|k0 ks0 Hk Hnd']; subst.
    set (rest := List.filter (fun x => negb (bool_decide (fst x = k))) xs).
    assert (Hsame : flat_map (fun k' => List.map snd
                      (List.filter (fun x => bool_decide (fst x = k')) xs)) ks
                  = flat_map (fun k' => List.map snd
                      (List.filter (fun x => bool_decide (fst x = k')) rest)) ks).
    { rewrite !flat_map_concat_map. f_equal. apply map_ext_in.
      intros k' Hk'. f_equal. unfold rest.
      clear -Hk Hk'. induction xs as [|x xs IHxs]; simpl; [reflexivity|].
      destruct (decide (fst x = k)) as [Hxk|Hxk].
      - rewrite (bool_decide_true (fst x = k)) by exact Hxk. simpl.
        rewrite (bool_decide_false (fst x = k')) by (intros Heq; congruence).
        exact IHxs.
      - rewrite (bool_decide_false (fst x = k)) by exact Hxk. simpl.
        destruct (bool_decide (fst x = k')); [f_equal|]; exact IHxs. }
    rewrite Hsame.
    rewrite (IH rest Hnd').
    + rewrite <- List.map_app. apply Permutation_map, filter_split.
    + intros x Hx. unfold rest in Hx. apply List.filter_In in Hx as [Hx Hne].
      destruct (Hcov x Hx) as [Heq|Hin]; [|exact Hin].
      rewrite bool_decide_true in Hne by (symmetry; exact Heq). discriminate Hne.
Qed.
End BucketFacts.

(** ** The stable descending sort *)

Section SortFacts.
Context {A : Type} (key : A -> Z).

Lemma insert_desc_perm (x : A) (l : list A) :
  Permutation (insert_desc key x l) (x :: l).
Proof.
  induction l as [|y l IH]; simpl; [reflexivity|].
  destruct (key x <? key y); [|reflexivity].
  rewrite IH. apply perm_swap.
Qed.

Lemma sorted_reverse_perm (l : list A) : Permutation (sorted_reverse key l) l.
Proof.
  induction l as [|x l IH]; simpl; [constructor|].
  rewrite insert_desc_perm, IH. reflexivity.
Qed.

Lemma insert_desc_hd (a x : A) (l : list A) :
  key x <= key a ->
  HdRel (fun u v => key v <= key u) a l ->
  HdRel (fun u v => key v <= key u) a (insert_desc key x l).
Proof.
  intros Hx Hl. destruct l as [|y l]; simpl; [constructor; exact Hx|].
  destruct (key x <? key y); constructor.
  - inversion Hl; assumption.
  - exact Hx.
Qed.

Lemma insert_desc_sorted (x : A) (l : list A) :
  Sorted (fun u v => key v <= key u) l ->
  Sorted (fun u v => key v <= key u) (insert_desc key x l).
Proof.
  induction l as [|y l IH]; intros Hs; simpl.
  - repeat constructor.
  - inversion Hs as [|y0 l0 Hs' Hhd]; subst.
    destruct (Z.ltb_spec (key x) (key y)) as [Hlt|Hge].
    + constructor; [apply IH, Hs'|]. apply insert_desc_hd; [lia|exact Hhd].
    + constructor; [exact Hs|]. constructor. exact Hge.
Qed.

Lemma sorted_reverse_sorted (l : list A) :
  Sorted (fun u v => key v <= key u) (sorted_reverse key l).
Proof.
  induction l as [|x l IH]; simpl; [constructor|].
  apply insert_desc_sorted, IH.
Qed.

Lemma sorted_reverse_strongly_sorted (l : list A) :
  StronglySorted (fun u v => key v <= key u) (sorted_reverse key l).
Proof.
  apply Sorted_StronglySorted; [|apply sorted_reverse_sorted].
  intros u v w Huv Hvw. lia.
Qed.

(** Inserting never moves an element past another one of the same key. *)
Lemma insert_desc_stable (v : Z) (x : A) (l : list A) :
  List.filter (fun a => key a =? v) (insert_desc key x l)
  = List.filter (fun a => key a =? v) (x :: l).
Proof.
  induction l as [|y l IH]; [reflexivity|].
  cbn [insert_desc]. destruct (Z.ltb_spec (key x) (key y)) as [Hlt|Hge]; [|reflexivity].
  cbn [List.filter] in *. rewrite IH.
  destruct (Z.eqb_spec (key x) v) as [Hx|Hx]; [|reflexivity].
  destruct (Z.eqb_spec (key y) v) as [Hy|Hy]; [lia|reflexivity].
Qed.

Lemma sorted_reverse_stable (v : Z) (l : list A) :
  List.filter (fun a => key a =? v) (sorted_reverse key l)
  = List.filter (fun a => key a =? v) l.
Proof.
  induction l as [|x l IH]; [reflexivity|].
  cbn [sorted_reverse]. rewrite insert_desc_stable.
  cbn [List.filter]. rewrite IH. reflexivity.
Qed.
End SortFacts.

(** ** Volumes *)

Section VolumeFacts.
Implicit Types (d : dict (list FileRecord)).

Lemma compute_volumes_loop (acc : dict Z) d :
  List.NoDup (dict_keys acc ++ dict_keys d) ->
  foldl (fun lang_volumes '(lang, files) =>
           dict_set lang (total_chars files) lang_volumes) acc d
  = acc ++ List.map (fun '(l, b) => (l, total_chars b)) d.
Proof.
  revert acc. induction d as [|[l b] d IH]; intros acc Hnd; simpl.
  - rewrite app_nil_r. reflexivity.
  - simpl in Hnd. apply NoDup_remove in Hnd as Hrem. destruct Hrem as [_ Hl].
    rewrite dict_set_fresh by (intros Hin; apply Hl, in_or_app; left; exact Hin).
    rewrite IH.
    + rewrite <- app_assoc. reflexivity.
    + rewrite dict_keys_app, <- app_assoc. exact Hnd.
Qed.

(** With distinct bucket labels the volume dict has the labels of the
    buckets, in the same order. *)
Lemma compute_volumes_map d :
  List.NoDup (dict_keys d) ->
  compute_volumes d = List.map (fun '(l, b) => (l, total_chars b)) d.
Proof. intros Hnd. unfold compute_volumes. apply (compute_volumes_loop [] d Hnd). Qed.

Lemma compute_volumes_keys d :
  List.NoDup (dict_keys d) -> dict_keys (compute_volumes d) = dict_keys d.
Proof.
  intros Hnd. rewrite compute_volumes_map by exact Hnd.
  unfold dict_keys. rewrite List.map_map. apply List.map_ext. intros [l b]. reflexivity.
Qed.

(** The sort key of a label is the total size of its bucket. *)
Lemma volume_of_bucket d (l : str) :
  List.NoDup (dict_keys d) ->
  volume_of (compute_volumes d) l = total_chars (bucket_of l d).
Proof.
  intros Hnd. unfold volume_of, bucket_of.
  rewrite compute_volumes_map by exact Hnd.
  rewrite (dict_get_map total_chars).
  destruct (dict_get l d); reflexivity.
Qed.
End VolumeFacts.

(** ** The run as a whole *)

Section RunFacts.
Variables lower upper : str -> str.
Variables root_dir script_name : str.

Abbreviation trace tree := (appends_of lower script_name (os_walk root_dir tree)).
Abbreviation buckets tree := (collect lower root_dir script_name tree).

Lemma bucket_of_nil (l : str) : bucket_of l [] = [].
Proof. reflexivity. Qed.

Lemma buckets_NoDup (tree : Dir) : List.NoDup (dict_keys (buckets tree)).
Proof. rewrite collect_trace. apply append_all_NoDup. constructor. Qed.

(** A bucket is the part of the trace filed under its label. *)
Lemma bucket_is_trace_part (tree : Dir) (l : str) :
  bucket_of l (buckets tree)
  = List.map snd (List.filter (fun x => bool_decide (fst x = l)) (trace tree)).
Proof. rewrite collect_trace, append_all_read. reflexivity. Qed.

Lemma bucket_member (tree : Dir) (l : str) (r : FileRecord) :
  In r (bucket_of l (buckets tree)) <-> In (l, r) (trace tree).
Proof.
  rewrite bucket_is_trace_part, in_map_iff. split.
  - intros [[l' r'] [Hr Hin]]. simpl in Hr. subst r'.
    apply List.filter_In in Hin as [Hin Hl]. simpl in Hl.
    apply bool_decide_eq_true in Hl. subst l'. exact Hin.
  - intros Hin. exists (l, r). split; [reflexivity|].
    apply List.filter_In. split; [exact Hin|]. simpl.
    apply bool_decide_eq_true. reflexivity.
Qed.

(** The trace holds exactly the eligible files of the tree. *)
Lemma trace_is_eligible (tree : Dir) :
  trace tree
  = List.map (fun e => (lang_of lower (f_name (e_file e)), entry_record e))
      (List.filter (eligible lower script_name) (all_files [] root_dir tree)).
Proof. apply (proj1 (walk_trace_spec lower script_name)). reflexivity. Qed.

Lemma trace_member (tree : Dir) (l : str) (r : FileRecord) :
  In (l, r) (trace tree)
  <-> exists e, In e (all_files [] root_dir tree)
                /\ eligible lower script_name e = true
                /\ l = lang_of lower (f_name (e_file e))
                /\ r = entry_record e.
Proof.
  rewrite trace_is_eligible, in_map_iff. split.
  - intros [e [Heq Hin]]. apply List.filter_In in Hin as [Hin Hel].
    inversion Heq. exists e. auto.
  - intros [e (Hin & Hel & -> & ->)]. exists e. split; [reflexivity|].
    apply List.filter_In. auto.
Qed.

Lemma recognized_lang_of (filename : str) :
  recognized lower filename = true ->
  ext_to_lang lower !! extension lower filename = Some (lang_of lower filename).
Proof.
  unfold recognized, lang_of. intros H. apply bool_decide_eq_true in H.
  destruct H as [lang Hlang]. rewrite Hlang. reflexivity.
Qed.

Lemma eligible_parts (e : Located) :
  eligible lower script_name e = true ->
  recognized lower (f_name (e_file e)) = true
  /\ under_excluded (e_ancestors e) = false
  /\ f_name (e_file e) <> script_name
  /\ readable (e_file e) = true.
Proof.
  unfold eligible. rewrite !andb_true_iff, !negb_true_iff.
  intros [[[Hrec Hex] Hself] Hread]. repeat split; try assumption.
  apply bool_decide_eq_false in Hself. exact Hself.
Qed.

Lemma sorted_reverse_ext {A : Type} (key key' : A -> Z) (l : list A) :
  (forall x, key x = key' x) -> sorted_reverse key l = sorted_reverse key' l.
Proof.
  intros Hext. induction l as [|x l IH]; simpl; [reflexivity|]. rewrite IH.
  generalize (sorted_reverse key' l). intros s.
  induction s as [|y s IHs]; simpl; [reflexivity|].
  rewrite !Hext, IHs. reflexivity.
Qed.

(** The ordered language list: the bucket labels, sorted by the size of
    their bucket. *)
Lemma sorted_langs_buckets (tree : Dir) :
  sorted_langs (compute_volumes (buckets tree))
  = sorted_reverse (fun l => total_chars (bucket_of l (buckets tree)))
      (dict_keys (buckets tree)).
Proof.
  unfold sorted_langs. rewrite compute_volumes_keys by apply buckets_NoDup.
  apply sorted_reverse_ext. intros l. apply volume_of_bucket, buckets_NoDup.
Qed.

Lemma sections_labels (tree : Dir) :
  List.map fst (sections lower script_name root_dir tree)
  = sorted_langs (compute_volumes (buckets tree)).
Proof.
  unfold sections. rewrite List.map_map. simpl. apply List.map_id.
Qed.

Lemma sections_member (tree : Dir) (lang : str) (bucket : list FileRecord) :
  In (lang, bucket) (sections lower script_name root_dir tree) ->
  bucket = bucket_of lang (buckets tree) /\ In lang (dict_keys (buckets tree)).
Proof.
  unfold sections. rewrite in_map_iff. intros [l [Heq Hin]].
  inversion Heq; subst. split; [reflexivity|].
  rewrite sorted_langs_buckets in Hin.
  eapply Permutation_in; [apply sorted_reverse_perm|exact Hin].
Qed.
End RunFacts.

(** ** The renderer writes the grammar *)

Lemma write_failed (outfile : Outfile) (e s : str) :
  write_error outfile = Some e -> write outfile s = outfile.
Proof. intros He. unfold write. rewrite He. reflexivity. Qed.

Lemma writes_failed (outfile : Outfile) (e : str) (ws : list str) :
  write_error outfile = Some e -> foldl write outfile ws = outfile.
Proof.
  intros He. induction ws as [|s ws IH]; [reflexivity|].
  cbn [foldl]. rewrite (write_failed outfile e s He). exact IH.
Qed.

(** A sequence of writes adds the texts before the first one that cannot be
    encoded, and raises on that one. *)
Lemma writes_spec (ws : list str) (text : str) :
  foldl write (mkOutfile text None) ws
  = mkOutfile (text ++ concat (accepted_writes ws))
      (List.find (fun s => negb (encodable s)) ws).
Proof.
  revert text. induction ws as [|s ws IH]; intros text.
  - cbn [foldl accepted_writes concat List.find]. rewrite app_nil_r. reflexivity.
  - cbn [foldl accepted_writes List.find]. unfold write at 2. cbn [write_error written].
    destruct (encodable s); cbn [negb concat].
    + rewrite IH, <- app_assoc. reflexivity.
    + rewrite (writes_failed _ s) by reflexivity. rewrite app_nil_r. reflexivity.
Qed.

Lemma accepted_writes_all (ws : list str) :
  List.find (fun s => negb (encodable s)) ws = None -> accepted_writes ws = ws.
Proof.
  induction ws as [|s ws IH]; [reflexivity|]. cbn [List.find accepted_writes].
  destruct (encodable s); cbn [negb]; [|discriminate].
  intros H. rewrite IH by exact H. reflexivity.
Qed.

Section RenderFacts.
Variables lower upper : str -> str.
Variables root_dir script_name : str.
Variable open_fails : bool.
Variable print_fails : bool.

Lemma write_file_writes (lang : str) (outfile : Outfile) (r : FileRecord) :
  write_file lower lang outfile r = foldl write outfile (entry_writes lower lang r).
Proof. reflexivity. Qed.

Lemma write_files_writes (lang : str) (outfile : Outfile) (bucket : list FileRecord) :
  foldl (write_file lower lang) outfile bucket
  = foldl write outfile (flat_map (entry_writes lower lang) bucket).
Proof.
  revert outfile. induction bucket as [|r bucket IH]; intros outfile; [reflexivity|].
  cbn [foldl flat_map]. rewrite IH, write_file_writes, foldl_app. reflexivity.
Qed.

Lemma write_lang_writes (files_by_lang : dict (list FileRecord))
    (outfile : Outfile) (lang : str) :
  write_lang lower upper files_by_lang outfile lang
  = foldl write outfile (section_writes lower upper (lang, bucket_of lang files_by_lang)).
Proof.
  unfold write_lang, section_writes. cbn [fst snd].
  rewrite write_files_writes, !foldl_app. reflexivity.
Qed.

Lemma write_langs_writes (files_by_lang : dict (list FileRecord))
    (outfile : Outfile) (langs : list str) :
  foldl (write_lang lower upper files_by_lang) outfile langs
  = foldl write outfile
      (flat_map (fun lang =>
                   section_writes lower upper (lang, bucket_of lang files_by_lang)) langs).
Proof.
  revert outfile. induction langs as [|lang langs IH]; intros outfile; [reflexivity|].
  cbn [foldl flat_map]. rewrite IH, write_lang_writes, foldl_app. reflexivity.
Qed.

(** The block hands [report_writes] to the file, in order. *)
Lemma render_writes (tree : Dir) :
  render lower upper root_dir
    (sorted_langs (compute_volumes (collect lower root_dir script_name tree)))
    (collect lower root_dir script_name tree)
  = foldl write (mkOutfile [] None)
      (report_writes lower upper root_dir (sections lower script_name root_dir tree)).
Proof.
  unfold render, report_writes, sections. rewrite write_langs_writes, foldl_app.
  rewrite flat_map_concat_map, (flat_map_concat_map (section_writes lower upper)).
  rewrite List.map_map. reflexivity.
Qed.

Lemma entry_writes_text (lang : str) (r : FileRecord) :
  concat (entry_writes lower lang r) = entry_text lower lang r.
Proof.
  unfold entry_writes, entry_text. cbn [concat]. rewrite app_nil_r.
  repeat rewrite <- app_assoc. reflexivity.
Qed.

Lemma section_writes_text (sec : str * list FileRecord) :
  concat (section_writes lower upper sec) = section_text lower upper sec.
Proof.
  assert (Hentries : concat (flat_map (entry_writes lower (fst sec)) (snd sec))
                     = flat_map (entry_text lower (fst sec)) (snd sec)).
  { induction (snd sec) as [|r rs IH]; [reflexivity|].
    cbn [flat_map]. rewrite concat_app, entry_writes_text, IH. reflexivity. }
  unfold section_writes, section_text. rewrite !concat_app, Hentries. cbn [concat].
  rewrite !app_nil_r. reflexivity.
Qed.

(** Put together, the writes of a report are the preamble followed by the
    sections. *)
Lemma report_writes_text (secs : list (str * list FileRecord)) :
  concat (report_writes lower upper root_dir secs)
  = preamble upper root_dir ++ flat_map (section_text lower upper) secs.
Proof.
  unfold report_writes. rewrite concat_app. f_equal.
  - unfold preamble_writes, preamble. cbn [concat]. rewrite app_nil_r.
    repeat rewrite <- app_assoc. reflexivity.
  - induction secs as [|sec secs IH]; [reflexivity|].
    cbn [flat_map]. rewrite concat_app, section_writes_text, IH. reflexivity.
Qed.

(** The outcome of a run, read off the writes of its report. *)
Lemma run_outcome (tree : Dir) :
  generate_codebase_markdown lower upper root_dir script_name open_fails print_fails tree
  = let ws := report_writes lower upper root_dir (sections lower script_name root_dir tree) in
    if open_fails || report_is_directory root_dir tree then
      mkRun (output_path root_dir) None [] (Some OpenRaised) false
    else
      match List.find (fun s => negb (encodable s)) ws with
      | Some s =>
          mkRun (output_path root_dir) (Some (concat (accepted_writes ws))) []
            (Some (WriteRaised s)) false
      | None =>
          if print_fails then
            mkRun (output_path root_dir) (Some (concat ws)) [] None true
          else
            mkRun (output_path root_dir) (Some (concat ws))
              (py "Success: '" ++ output_filename root_dir
                 ++ py "' generated in workspace root: " ++ root_dir ++ [newline])
              None false
      end.
Proof.
  unfold generate_codebase_markdown. cbv zeta.
  destruct (open_fails || report_is_directory root_dir tree); [reflexivity|].
  rewrite render_writes, writes_spec. cbn [write_error written app].
  destruct (List.find _ _) eqn:Hfind; [reflexivity|].
  rewrite (accepted_writes_all _ Hfind). reflexivity.
Qed.

(** A run whose writing does not raise leaves the preamble followed by the sections,
    in order. *)
Lemma document_sections (tree : Dir) :
  out_raised (generate_codebase_markdown lower upper root_dir script_name open_fails print_fails tree)
    = None ->
  out_document (generate_codebase_markdown lower upper root_dir script_name open_fails print_fails tree)
  = Some (preamble upper root_dir
            ++ flat_map (section_text lower upper)
                 (sections lower script_name root_dir tree)).
Proof.
  rewrite run_outcome. cbv zeta.
  destruct (open_fails || report_is_directory root_dir tree); [discriminate|].
  destruct (List.find _ _); [discriminate|].
  intros _. destruct print_fails; cbn [out_document]; rewrite report_writes_text;
    reflexivity.
Qed.
End RenderFacts.

Lemma total_chars_loop (acc : Z) (files : list FileRecord) :
  foldl (fun acc r => acc + len (r_content r)) acc files
  = acc + len (flat_map r_content files).
Proof.
  revert acc. induction files as [|r files IH]; intros acc.
  - cbn [foldl flat_map]. unfold len. simpl. lia.
  - cbn [foldl flat_map]. rewrite IH, len_app. lia.
Qed.

(** The volume of a bucket is the length of its contents put together. *)
Lemma total_chars_concat (files : list FileRecord) :
  total_chars files = len (flat_map r_content files).
Proof. unfold total_chars. rewrite total_chars_loop. lia. Qed.

Lemma bucket_nonempty_key (l : str) (d : dict (list FileRecord)) :
  bucket_of l d <> [] -> In l (dict_keys d).
Proof.
  intros Hne. destruct (decide (In l (dict_keys d))) as [Hin|Hnin]; [exact Hin|].
  exfalso. apply Hne. unfold bucket_of. rewrite dict_get_None by exact Hnin. reflexivity.
Qed.

(** * The claims *)

(** C1, as stated, fails: writing the report can raise, and the files not
    yet written are then in no section of the document.  In [odd_tree] both
    files are eligible; the first name holds a lone surrogate, which the
    report (opened with [encoding='utf-8']) cannot encode, so the first
    [outfile.write] of a file name raises: the report ends after the Python
    banner, with no entry at all, and nothing is printed. *)
Lemma unencodable_name_cuts_report :
  List.map (fun e => f_name (e_file e))
    (List.filter (eligible ascii_lower demo_script) (all_files [] demo_root odd_tree))
  = [odd_name; py "b.py"]
  /\ generate_codebase_markdown ascii_lower ascii_upper demo_root demo_script false false odd_tree
     = mkRun (output_path demo_root)
         (Some (preamble ascii_upper demo_root
                  ++ create_ascii_box ascii_upper (py "Python") 40 true))
         []
         (Some (WriteRaised (odd_name ++ [newline])))
         false.
Proof. split; vm_compute; reflexivity. Qed.

(** C1, amended: in every run whose report is written without raising (it
    could be opened and every text written to it could be encoded), every
    file under the root whose (lower-cased) extension is in the registry, which has no
    excluded directory name on its path below the root, whose name is not
    the script's own file name and whose read succeeds, appears in exactly
    one language section of the output document, exactly once.  In every
    run the sections carry distinct labels; their buckets, put together, are
    a permutation of the records of the eligible files of the unpruned tree;
    and a record sits in the section of the label its extension maps to.  In
    a run whose writing does not raise, the document is the preamble
    followed by the text of these sections. *)
Theorem eligible_files_appear_exactly_once
    (lower upper : str -> str) (root_dir script_name : str) (open_fails print_fails : bool)
    (tree : Dir) :
  let secs := sections lower script_name root_dir tree in
  List.NoDup (List.map fst secs)
  /\ Permutation (concat (List.map snd secs))
       (List.map entry_record
          (List.filter (eligible lower script_name) (all_files [] root_dir tree)))
  /\ (forall lang bucket r,
         In (lang, bucket) secs -> In r bucket ->
         ext_to_lang lower !! extension lower (r_filename r) = Some lang)
  /\ (out_raised
        (generate_codebase_markdown lower upper root_dir script_name open_fails print_fails tree)
        = None ->
      out_document
        (generate_codebase_markdown lower upper root_dir script_name open_fails print_fails tree)
      = Some (preamble upper root_dir ++ flat_map (section_text lower upper) secs)).
Proof.
  intros secs. unfold secs.
  assert (Hperm : Permutation (sorted_langs (compute_volumes
                     (collect lower root_dir script_name tree)))
                    (dict_keys (collect lower root_dir script_name tree))).
  { rewrite sorted_langs_buckets. apply sorted_reverse_perm. }
  split; [|split; [|split]].
  - rewrite sections_labels. eapply Permutation_NoDup.
    + apply Permutation_sym, Hperm.
    + apply buckets_NoDup.
  - unfold sections. rewrite List.map_map. cbn [snd].
    rewrite <- flat_map_concat_map.
    rewrite (Permutation_flat_map _ Hperm).
    assert (Hrecs : List.map entry_record
                      (List.filter (eligible lower script_name) (all_files [] root_dir tree))
                    = List.map snd (appends_of lower script_name (os_walk root_dir tree))).
    { rewrite trace_is_eligible, List.map_map. reflexivity. }
    rewrite Hrecs.
    erewrite flat_map_ext by (intros l; apply bucket_is_trace_part).
    apply grouped_trace_perm; [apply buckets_NoDup|].
    intros [l r] Hin. cbn [fst]. rewrite collect_trace.
    apply append_all_keys. right. apply (in_map fst) in Hin. exact Hin.
  - intros lang bucket r Hsec Hr.
    apply sections_member in Hsec as [-> _].
    apply bucket_member, trace_member in Hr as [e (Hin & Hel & -> & ->)].
    apply eligible_parts in Hel as [Hrec _].
    apply recognized_lang_of, Hrec.
  - apply document_sections.
Qed.

Lemma eligible_files_appear_exactly_once_witness :
  out_document
    (generate_codebase_markdown ascii_lower ascii_upper demo_root demo_script false false demo_tree)
  = Some (preamble ascii_upper demo_root
            ++ flat_map (section_text ascii_lower ascii_upper)
                 (sections ascii_lower demo_script demo_root demo_tree)).
Proof.
  apply (eligible_files_appear_exactly_once
           ascii_lower ascii_upper demo_root demo_script false false demo_tree).
  vm_compute. reflexivity.
Defined.

(** ** Order within a filtered list *)

Lemma filter_precedes {A : Type} (p : A -> bool) (a b : A) (l : list A) :
  p a = true -> p b = true -> precedes a b l -> precedes a b (List.filter p l).
Proof.
  intros Ha Hb (l1 & l2 & l3 & ->).
  exists (List.filter p l1), (List.filter p l2), (List.filter p l3).
  rewrite List.filter_app. cbn [List.filter]. rewrite Ha.
  rewrite List.filter_app. cbn [List.filter]. rewrite Hb. reflexivity.
Qed.

Lemma filter_cons_inv {A : Type} (p : A -> bool) (a : A) (l m1 m2 : list A) :
  List.filter p l = m1 ++ a :: m2 ->
  exists l1 l2, l = l1 ++ a :: l2 /\ List.filter p l2 = m2.
Proof.
  revert m1. induction l as [|x l IH]; intros m1 Hf.
  - destruct m1; discriminate Hf.
  - cbn [List.filter] in Hf. destruct (p x) eqn:Hx.
    + destruct m1 as [|y m1]; cbn [app] in Hf.
      * injection Hf as Hxa Hrest. subst x. exists [], l. split; [reflexivity|exact Hrest].
      * injection Hf as _ Hrest. destruct (IH m1 Hrest) as (l1 & l2 & -> & Hl2).
        exists (x :: l1), l2. split; [reflexivity|exact Hl2].
    + destruct (IH m1 Hf) as (l1 & l2 & -> & Hl2).
      exists (x :: l1), l2. split; [reflexivity|exact Hl2].
Qed.

Lemma precedes_filter {A : Type} (p : A -> bool) (a b : A) (l : list A) :
  precedes a b (List.filter p l) -> precedes a b l.
Proof.
  intros (m1 & m2 & m3 & Hf).
  destruct (filter_cons_inv p a l m1 _ Hf) as (l1 & l2 & -> & Hl2).
  destruct (filter_cons_inv p b l2 m2 _ Hl2) as (k1 & k2 & -> & _).
  exists l1, k1, k2. reflexivity.
Qed.

(** C4: the ordered language list is the bucket labels sorted by descending
    volume, the volume of a label being the number of characters of its
    bucket's contents put together (which is the sort key the script
    computes); labels of equal volume keep their discovery order, the order
    in which the buckets were created: for every volume [v] the labels of
    volume [v] come in the same order in the sorted list and in the bucket
    dict, and a label discovered before another one of the same volume is
    listed before it.  The sections of the report are written in that
    order. *)
Theorem sorted_langs_descending_stable
    (lower : str -> str) (root_dir script_name : str) (tree : Dir) :
  let files_by_lang := collect lower root_dir script_name tree in
  let langs := sorted_langs (compute_volumes files_by_lang) in
  let volume := fun l => len (flat_map r_content (bucket_of l files_by_lang)) in
  Permutation langs (dict_keys files_by_lang)
  /\ StronglySorted (fun a b => volume b <= volume a) langs
  /\ (forall v, List.filter (fun l => volume l =? v) langs
                = List.filter (fun l => volume l =? v) (dict_keys files_by_lang))
  /\ (forall a b, volume a = volume b ->
                  precedes a b (dict_keys files_by_lang) -> precedes a b langs)
  /\ (forall l, volume_of (compute_volumes files_by_lang) l = volume l)
  /\ List.map fst (sections lower script_name root_dir tree) = langs.
Proof.
  intros files_by_lang langs volume.
  assert (Hlangs : langs = sorted_reverse volume (dict_keys files_by_lang)).
  { unfold langs, files_by_lang. rewrite sorted_langs_buckets.
    apply sorted_reverse_ext. intros l. apply total_chars_concat. }
  split; [|split; [|split; [|split; [|split]]]].
  - rewrite Hlangs. apply sorted_reverse_perm.
  - rewrite Hlangs. apply sorted_reverse_strongly_sorted.
  - intros v. rewrite Hlangs. apply sorted_reverse_stable.
  - intros a b Hab Hprec.
    apply (precedes_filter (fun l => volume l =? volume a)).
    rewrite Hlangs, sorted_reverse_stable.
    apply filter_precedes; [apply Z.eqb_refl|apply Z.eqb_eq; symmetry; exact Hab|exact Hprec].
  - intros l. unfold files_by_lang, volume.
    rewrite volume_of_bucket by apply buckets_NoDup. apply total_chars_concat.
  - apply sections_labels.
Qed.

(** C5, as stated, fails: a write that raises ends the report, and the
    entries not yet written are missing.  In [cut_tree] the Python bucket
    holds three records; the name of the second cannot be encoded, so the
    report ends inside its entry and the entry of the third record, a
    thousand characters of content, is nowhere in the document, which is
    shorter than that. *)
Lemma unencodable_name_drops_entries :
  bucket_of (py "Python") (collect ascii_lower demo_root demo_script cut_tree)
  = [ mkRecord (py "main.py") demo_root (py "m");
      mkRecord odd_name demo_root (py "x");
      mkRecord (py "util.py") demo_root (repeat 120%N 1000) ]
  /\ ~ exists pre post,
        out_document
          (generate_codebase_markdown ascii_lower ascii_upper demo_root demo_script
             false false cut_tree)
        = Some (pre
                  ++ entry_text ascii_lower (py "Python")
                       (mkRecord (py "util.py") demo_root (repeat 120%N 1000))
                  ++ post).
Proof.
  split; [vm_compute; reflexivity|].
  intros (pre & post & Hdoc).
  remember (entry_text ascii_lower (py "Python")
              (mkRecord (py "util.py") demo_root (repeat 120%N 1000))) as entry eqn:Hentry.
  assert (Hlong : (1000 <= length entry)%nat)
    by (subst entry; apply Nat.leb_le; vm_compute; reflexivity).
  clear Hentry.
  assert (Hshort : exists d,
             out_document
               (generate_codebase_markdown ascii_lower ascii_upper demo_root demo_script
                  false false cut_tree) = Some d
             /\ Nat.ltb (length d) 1000 = true).
  { eexists. split; vm_compute; reflexivity. }
  destruct Hshort as (d & Hd & Hlt). rewrite Hd in Hdoc. injection Hdoc as ->.
  apply Nat.ltb_lt in Hlt. rewrite !length_app in Hlt. lia.
Qed.

(** C5, amended: in every run whose report is written without raising (it
    could be opened and every text written to it could be encoded), for
    every record of every bucket the document holds, in bucket order, the file name, then
    its directory path, then the content inside a fence tagged with the
    lower-cased label, then a line of 80 dashes: with the bucket of [lang]
    split at any record [r], the document is some text, the entries of the
    records before [r], the entry of [r] spelled out, the entries of the
    records after [r], and some more text. *)
Theorem entries_rendered_in_bucket_order
    (lower upper : str -> str) (root_dir script_name : str) (open_fails print_fails : bool)
    (tree : Dir)
    (lang : str) (before : list FileRecord) (r : FileRecord) (after : list FileRecord) :
  out_raised (generate_codebase_markdown lower upper root_dir script_name open_fails print_fails tree)
    = None ->
  bucket_of lang (collect lower root_dir script_name tree) = before ++ r :: after ->
  exists pre post,
    out_document (generate_codebase_markdown lower upper root_dir script_name open_fails print_fails tree)
    = Some (pre
        ++ flat_map (entry_text lower lang) before
        ++ (r_filename r ++ [newline]
              ++ r_dirpath r ++ [newline]
              ++ py "```" ++ lower lang ++ [newline]
              ++ r_content r
              ++ [newline] ++ py "```" ++ [newline] ++ [newline]
              ++ repeat dash 80 ++ [newline] ++ [newline])
        ++ flat_map (entry_text lower lang) after
        ++ post).
Proof.
  intros Hdone Hbucket.
  assert (Hkey : In lang (sorted_langs (compute_volumes
                    (collect lower root_dir script_name tree)))).
  { rewrite sorted_langs_buckets.
    eapply Permutation_in; [apply Permutation_sym, sorted_reverse_perm|].
    apply bucket_nonempty_key. rewrite Hbucket. destruct before; discriminate. }
  apply in_split in Hkey as [l1 [l2 Hsplit]].
  rewrite (document_sections _ _ _ _ _ _ _ Hdone). unfold sections. rewrite Hsplit.
  rewrite List.map_app, flat_map_app. cbn [List.map flat_map].
  unfold section_text at 2. cbn [fst snd]. rewrite Hbucket.
  rewrite flat_map_app. cbn [flat_map].
  change (entry_text lower lang r)
    with (r_filename r ++ [newline]
              ++ r_dirpath r ++ [newline]
              ++ py "```" ++ lower lang ++ [newline]
              ++ r_content r
              ++ [newline] ++ py "```" ++ [newline] ++ [newline]
              ++ repeat dash 80 ++ [newline] ++ [newline]).
  exists (preamble upper root_dir
            ++ flat_map (section_text lower upper)
                 (List.map (fun l => (l, bucket_of l (collect lower root_dir script_name tree))) l1)
            ++ create_ascii_box upper lang 40 true).
  exists ([newline; newline]
            ++ flat_map (section_text lower upper)
                 (List.map (fun l => (l, bucket_of l (collect lower root_dir script_name tree))) l2)).
  repeat rewrite <- app_assoc. reflexivity.
Qed.

Lemma entries_rendered_in_bucket_order_witness :
  exists pre post,
    out_document (generate_codebase_markdown ascii_lower ascii_upper
                    demo_root demo_script false false demo_tree)
    = Some (pre
        ++ flat_map (entry_text ascii_lower (py "Python"))
             [mkRecord (py "main.py") demo_root (py "print(1)")]
        ++ (py "util.py" ++ [newline]
              ++ demo_root ++ [newline]
              ++ py "```" ++ ascii_lower (py "Python") ++ [newline]
              ++ py "pass"
              ++ [newline] ++ py "```" ++ [newline] ++ [newline]
              ++ repeat dash 80 ++ [newline] ++ [newline])
        ++ flat_map (entry_text ascii_lower (py "Python")) []
        ++ post).
Proof.
  apply (entries_rendered_in_bucket_order ascii_lower ascii_upper
           demo_root demo_script false false demo_tree (py "Python")
           [mkRecord (py "main.py") demo_root (py "print(1)")]
           (mkRecord (py "util.py") demo_root (py "pass")) []).
  - vm_compute. reflexivity.
  - vm_compute. reflexivity.
Defined.

(** ** Files that leave no trace *)

Section Skipped.
Variable lower : str -> str.
Variable script_name : str.

Abbreviation classify' := (classify lower script_name).
Abbreviation appends_of' := (appends_of lower script_name).

(** Files that are never appended can be dropped from a listing. *)
Lemma files_trace_filter (keep : File -> bool) (dirpath : str) (fs : list File) :
  (forall f dp, keep f = false -> classify' dp f = None) ->
  flat_map (fun f => option_list (classify' dirpath f)) (List.filter keep fs)
  = flat_map (fun f => option_list (classify' dirpath f)) fs.
Proof.
  intros Hskip. induction fs as [|f fs IH]; [reflexivity|].
  cbn [List.filter flat_map]. destruct (keep f) eqn:Hk.
  - cbn [flat_map]. rewrite IH. reflexivity.
  - rewrite (Hskip f dirpath Hk). exact IH.
Qed.

Lemma keep_files_dirnames (keep : File -> bool) (sd : Subdirs) :
  dirnames_of (keep_files_sub keep sd) = dirnames_of sd.
Proof. induction sd as [|name d rest IH]; simpl; [reflexivity|]. rewrite IH. reflexivity. Qed.

(** Dropping files does not change whether the report's path is a
    directory. *)
Lemma keep_files_report_is_directory (keep : File -> bool) (root_dir : str) (tree : Dir) :
  report_is_directory root_dir (keep_files keep tree) = report_is_directory root_dir tree.
Proof.
  destruct tree as [files subdirs]. cbn [keep_files report_is_directory].
  rewrite keep_files_dirnames. reflexivity.
Qed.

(** ... and from the whole tree. *)
Lemma keep_files_trace (keep : File -> bool) :
  (forall f dp, keep f = false -> classify' dp f = None) ->
  (forall (d : Dir) (top : str),
      appends_of' (os_walk top (keep_files keep d)) = appends_of' (os_walk top d))
  /\ (forall (sd : Subdirs) (top : str),
      appends_of' (walk_subdirs top (keep_files_sub keep sd))
      = appends_of' (walk_subdirs top sd)).
Proof.
  intros Hskip. apply Dir_Subdirs_ind.
  - intros fs sd IH top. cbn [keep_files os_walk].
    rewrite !appends_of_cons, IH, files_trace_filter by exact Hskip. reflexivity.
  - reflexivity.
  - intros name d IHd rest IHrest top. cbn [keep_files_sub walk_subdirs].
    rewrite !appends_of_app, IHrest. f_equal.
    destruct (not_excluded name); [apply IHd|reflexivity].
Qed.

(** A run depends on the tree only through its trace. *)
Lemma same_trace_same_run (upper : str -> str) (root_dir : str) (open_fails print_fails : bool)
    (t1 t2 : Dir) :
  report_is_directory root_dir t1 = report_is_directory root_dir t2 ->
  appends_of' (os_walk root_dir t1) = appends_of' (os_walk root_dir t2) ->
  generate_codebase_markdown lower upper root_dir script_name open_fails print_fails t1
  = generate_codebase_markdown lower upper root_dir script_name open_fails print_fails t2.
Proof.
  intros Hdir Htrace. unfold generate_codebase_markdown.
  rewrite !collect_trace, Htrace, Hdir. reflexivity.
Qed.

Lemma classify_unreadable (dp : str) (f : File) :
  readable f = false -> classify' dp f = None.
Proof.
  unfold readable, classify. intros Hr.
  destruct (ext_to_lang lower !! _); [|reflexivity].
  destruct (bool_decide _); [reflexivity|].
  destruct (f_read f); [discriminate Hr|reflexivity].
Qed.

Lemma classify_self (dp : str) (f : File) :
  negb (named script_name f) = false -> classify' dp f = None.
Proof.
  unfold named, classify. intros Hn. apply negb_false_iff in Hn.
  destruct (ext_to_lang lower !! _); [|reflexivity].
  rewrite Hn. reflexivity.
Qed.

Lemma classify_unrecognized (dp : str) (f : File) :
  ext_to_lang lower !! extension lower (f_name f) = None -> classify' dp f = None.
Proof. unfold classify. intros ->. reflexivity. Qed.
End Skipped.

Lemma classify_Some (lower : str -> str) (script_name dp : str) (f : File)
    (lang : str) (r : FileRecord) :
  classify lower script_name dp f = Some (lang, r) ->
  ext_to_lang lower !! extension lower (f_name f) = Some lang
  /\ f_name f <> script_name
  /\ f_read f = ReadOk (r_content r)
  /\ r_filename r = f_name f
  /\ r_dirpath r = dp.
Proof.
  unfold classify.
  destruct (ext_to_lang lower !! extension lower (f_name f)) as [lang'|]; [|discriminate].
  destruct (bool_decide (f_name f = script_name)) eqn:Hself; [discriminate|].
  destruct (f_read f) as [content|err]; [|discriminate].
  intros Heq. inversion Heq; subst. cbn [r_content r_filename r_dirpath].
  apply bool_decide_eq_false in Hself. auto.
Qed.

(** C6: a file whose read fails is skipped silently.  The loop body leaves
    the buckets as they are, whatever the error; the files after it in the
    listing are processed as if it were not there; the whole outcome of a
    run (path, document and the success line printed) is the outcome on the
    tree without the unreadable files, so nothing about the failed read is
    surfaced and it never aborts the run; every record of a bucket comes
    from a file whose read succeeded with the recorded content. *)
Theorem unreadable_files_skipped_silently
    (lower upper : str -> str) (root_dir script_name : str) (open_fails print_fails : bool) :
  (forall dirpath files_by_lang filename err,
      visit_file lower script_name dirpath files_by_lang (mkFile filename (ReadFails err))
      = files_by_lang)
  /\ (forall dirpath files_by_lang fs1 filename err fs2,
      foldl (visit_file lower script_name dirpath) files_by_lang
        (fs1 ++ mkFile filename (ReadFails err) :: fs2)
      = foldl (visit_file lower script_name dirpath) files_by_lang (fs1 ++ fs2))
  /\ (forall tree,
      generate_codebase_markdown lower upper root_dir script_name open_fails print_fails tree
      = generate_codebase_markdown lower upper root_dir script_name open_fails print_fails
          (keep_files readable tree))
  /\ (forall tree lang r,
      In r (bucket_of lang (collect lower root_dir script_name tree)) ->
      exists e, In e (all_files [] root_dir tree)
                /\ f_read (e_file e) = ReadOk (r_content r)
                /\ r_filename r = f_name (e_file e)
                /\ r_dirpath r = e_dirpath e).
Proof.
  assert (Hstep : forall dirpath files_by_lang filename err,
      visit_file lower script_name dirpath files_by_lang (mkFile filename (ReadFails err))
      = files_by_lang).
  { intros dirpath files_by_lang filename err.
    rewrite visit_file_classify, classify_unreadable; reflexivity. }
  split; [exact Hstep|split; [|split]].
  - intros dirpath files_by_lang fs1 filename err fs2.
    rewrite !foldl_app. cbn [foldl]. rewrite Hstep. reflexivity.
  - intros tree. symmetry.
    apply same_trace_same_run; [apply keep_files_report_is_directory|].
    apply (proj1 (keep_files_trace lower script_name readable
                    (fun f dp => classify_unreadable lower script_name dp f))).
  - intros tree lang r Hr.
    apply bucket_member, trace_member in Hr as [e (Hin & Hel & -> & ->)].
    exists e. split; [exact Hin|].
    apply eligible_parts in Hel as (_ & _ & _ & Hread).
    unfold entry_record, content_of, readable in *. cbn [r_content r_filename r_dirpath].
    destruct (f_read (e_file e)); [auto|discriminate Hread].
Qed.

(** C8: every file whose name equals the script's own file name is skipped:
    the loop body leaves the buckets as they are for such a file, whatever
    its extension, its directory and the outcome of reading it; no record of
    any bucket or section bears that name; and the outcome of a run is the
    outcome on the tree without the files of that name. *)
Theorem own_source_file_skipped
    (lower upper : str -> str) (root_dir script_name : str) (open_fails print_fails : bool) :
  (forall dirpath files_by_lang outcome,
      visit_file lower script_name dirpath files_by_lang (mkFile script_name outcome)
      = files_by_lang)
  /\ (forall tree lang r,
      In r (bucket_of lang (collect lower root_dir script_name tree)) ->
      r_filename r <> script_name)
  /\ (forall tree lang bucket r,
      In (lang, bucket) (sections lower script_name root_dir tree) ->
      In r bucket -> r_filename r <> script_name)
  /\ (forall tree,
      generate_codebase_markdown lower upper root_dir script_name open_fails print_fails tree
      = generate_codebase_markdown lower upper root_dir script_name open_fails print_fails
          (keep_files (fun f => negb (named script_name f)) tree)).
Proof.
  assert (Hbucket : forall tree lang r,
      In r (bucket_of lang (collect lower root_dir script_name tree)) ->
      r_filename r <> script_name).
  { intros tree lang r Hr.
    apply bucket_member, trace_member in Hr as [e (Hin & Hel & -> & ->)].
    apply eligible_parts in Hel as (_ & _ & Hself & _). exact Hself. }
  split; [|split; [exact Hbucket|split]].
  - intros dirpath files_by_lang outcome.
    rewrite visit_file_classify, classify_self; [reflexivity|].
    unfold named. cbn [f_name]. rewrite bool_decide_true by reflexivity. reflexivity.
  - intros tree lang bucket r Hsec Hr.
    apply sections_member in Hsec as [-> _]. eapply Hbucket, Hr.
  - intros tree. symmetry.
    apply same_trace_same_run; [apply keep_files_report_is_directory|].
    apply (proj1 (keep_files_trace lower script_name _
                    (fun f dp => classify_self lower script_name dp f))).
Qed.

(** ** Pruning *)

Lemma erase_excluded_dirnames (sd : Subdirs) :
  dirnames_of (erase_excluded_sub sd) = dirnames_of sd.
Proof. induction sd as [|name d rest IH]; simpl; [reflexivity|]. rewrite IH. reflexivity. Qed.

(** The walk does not depend on what excluded directories hold. *)
Lemma erase_excluded_walk :
  (forall (d : Dir) (top : str), os_walk top (erase_excluded d) = os_walk top d)
  /\ (forall (sd : Subdirs) (top : str),
        walk_subdirs top (erase_excluded_sub sd) = walk_subdirs top sd).
Proof.
  apply Dir_Subdirs_ind.
  - intros fs sd IH top. cbn [erase_excluded os_walk].
    rewrite IH, erase_excluded_dirnames. reflexivity.
  - reflexivity.
  - intros name d IHd rest IHrest top. cbn [erase_excluded_sub walk_subdirs].
    rewrite IHrest. f_equal. unfold not_excluded.
    destruct (bool_decide (name ∈ exclude_dirs)); [reflexivity|]. apply IHd.
Qed.

Lemma excluded_subtree_dirs :
  (forall (d : Dir) (anc : list str) (top : str),
      under_excluded anc = true ->
      List.filter (fun a => negb (under_excluded (fst a))) (all_dirs anc top d) = [])
  /\ (forall (sd : Subdirs) (anc : list str) (top : str),
      under_excluded anc = true ->
      List.filter (fun a => negb (under_excluded (fst a))) (all_dirs_sub anc top sd) = []).
Proof.
  apply Dir_Subdirs_ind.
  - intros fs sd IH anc top Hanc. cbn [all_dirs List.filter fst].
    rewrite Hanc. cbn [negb]. apply IH, Hanc.
  - reflexivity.
  - intros name d IHd rest IHrest anc top Hanc. cbn [all_dirs_sub].
    rewrite List.filter_app, IHrest by exact Hanc.
    rewrite IHd; [reflexivity|]. rewrite under_excluded_snoc, Hanc. reflexivity.
Qed.

(** The directories visited are those with no excluded name on their path
    below the root. *)
Lemma walk_visits_spec :
  (forall (d : Dir) (anc : list str) (top : str),
      under_excluded anc = false ->
      List.map (fun v => fst (fst v)) (os_walk top d)
      = List.map snd (List.filter (fun a => negb (under_excluded (fst a)))
                        (all_dirs anc top d)))
  /\ (forall (sd : Subdirs) (anc : list str) (top : str),
      under_excluded anc = false ->
      List.map (fun v => fst (fst v)) (walk_subdirs top sd)
      = List.map snd (List.filter (fun a => negb (under_excluded (fst a)))
                        (all_dirs_sub anc top sd))).
Proof.
  apply Dir_Subdirs_ind.
  - intros fs sd IH anc top Hanc. cbn [os_walk all_dirs List.filter List.map fst].
    rewrite Hanc. cbn [negb List.map snd]. f_equal. apply IH, Hanc.
  - reflexivity.
  - intros name d IHd rest IHrest anc top Hanc. cbn [walk_subdirs all_dirs_sub].
    rewrite List.filter_app, !List.map_app, (IHrest anc) by exact Hanc. f_equal.
    destruct (not_excluded name) eqn:Hname.
    + apply IHd. rewrite under_excluded_snoc, Hanc, Hname. reflexivity.
    + rewrite (proj1 excluded_subtree_dirs); [reflexivity|].
      rewrite under_excluded_snoc, Hname. apply orb_true_r.
Qed.

(** C3: the contents of a subdirectory whose name is in the excluded set are
    never visited, and no file beneath one, at any depth, reaches a bucket or
    the output.  The sequence of directory visits, and with it the whole
    outcome of the run, is the one on the tree in which every excluded
    subdirectory is empty; the directories visited are exactly those with no
    excluded name on their path below the root; every record of a bucket is
    the record of a file with no excluded name on its path below the
    root. *)
Theorem excluded_directories_never_visited
    (lower upper : str -> str) (root_dir script_name : str) (open_fails print_fails : bool)
    (tree : Dir) :
  os_walk root_dir tree = os_walk root_dir (erase_excluded tree)
  /\ List.map (fun v => fst (fst v)) (os_walk root_dir tree)
     = List.map snd (List.filter (fun a => negb (under_excluded (fst a)))
                       (all_dirs [] root_dir tree))
  /\ generate_codebase_markdown lower upper root_dir script_name open_fails print_fails tree
     = generate_codebase_markdown lower upper root_dir script_name open_fails print_fails (erase_excluded tree)
  /\ (forall lang r,
         In r (bucket_of lang (collect lower root_dir script_name tree)) ->
         exists e, In e (all_files [] root_dir tree)
                   /\ under_excluded (e_ancestors e) = false
                   /\ r = entry_record e).
Proof.
  split; [|split; [|split]].
  - symmetry. apply (proj1 erase_excluded_walk).
  - apply (proj1 walk_visits_spec). reflexivity.
  - apply same_trace_same_run.
    + destruct tree as [files subdirs]. cbn [erase_excluded report_is_directory].
      rewrite erase_excluded_dirnames. reflexivity.
    + rewrite (proj1 erase_excluded_walk). reflexivity.
  - intros lang r Hr.
    apply bucket_member, trace_member in Hr as [e (Hin & Hel & -> & ->)].
    exists e. apply eligible_parts in Hel as (_ & Hex & _ & _). auto.
Qed.

(** ** The name of the report *)

Lemma rfind_bounds (c : char) (p : str) : -1 <= os_path.rfind c p < len p.
Proof.
  unfold len. induction p as [|x p IH]; simpl; [lia|].
  destruct (Z.leb_spec 0 (os_path.rfind c p)); [lia|].
  destruct (N.eqb x c); lia.
Qed.

Lemma rfind_app (c : char) (a b : str) :
  os_path.rfind c (a ++ b)
  = if 0 <=? os_path.rfind c b then len a + os_path.rfind c b else os_path.rfind c a.
Proof.
  unfold len. induction a as [|x a IH].
  - cbn [app length os_path.rfind]. pose proof (rfind_bounds c b).
    destruct (Z.leb_spec 0 (os_path.rfind c b)); lia.
  - cbn [app length os_path.rfind]. rewrite IH.
    destruct (Z.leb_spec 0 (os_path.rfind c b)) as [Hb|Hb]; [|reflexivity].
    destruct (Z.leb_spec 0 (Z.of_nat (length a) + os_path.rfind c b)); lia.
Qed.

(** Whatever the project name, the extension of the report's name is
    [".md"]. *)
Lemma splitext_report (name : str) :
  os_path.splitext (name ++ py ".codebase.md") = (name ++ py ".codebase", py ".md").
Proof.
  unfold os_path.splitext. rewrite !rfind_app.
  change (os_path.rfind sep (py ".codebase.md")) with (-1).
  change (os_path.rfind extsep (py ".codebase.md")) with 9.
  cbn [Z.leb]. change (0 <=? -1) with false. change (0 <=? 9) with true. cbv iota.
  pose proof (rfind_bounds sep name) as Hsep. unfold len in *.
  set (s := os_path.rfind sep name) in *.
  destruct (Z.ltb_spec s (Z.of_nat (length name) + 9)) as [_|Habs]; [|lia].
  assert (Hdot : Z.to_nat (Z.of_nat (length name) + 9) = (length name + 9)%nat) by lia.
  rewrite Hdot.
  assert (Hfirst : firstn (length name + 9) (name ++ py ".codebase.md")
                   = name ++ py ".codebase").
  { rewrite firstn_app, firstn_all2 by lia.
    replace (length name + 9 - length name)%nat with 9%nat by lia. reflexivity. }
  assert (Hskip : skipn (length name + 9) (name ++ py ".codebase.md") = py ".md").
  { rewrite skipn_app, skipn_all2 by lia.
    replace (length name + 9 - length name)%nat with 9%nat by lia. reflexivity. }
  rewrite Hfirst, Hskip.
  assert (Hex : existsb (fun ch => negb (N.eqb ch extsep))
                  (os_path.slice (name ++ py ".codebase.md") (s + 1)
                     (Z.of_nat (length name) + 9)) = true).
  { unfold os_path.slice.
    set (i := Z.to_nat (s + 1)).
    assert (Hi : (i <= length name)%nat) by lia.
    replace (Z.to_nat (Z.of_nat (length name) + 9 - (s + 1)))
      with ((length name - i) + 9)%nat by lia.
    rewrite skipn_app.
    replace (i - length name)%nat with 0%nat by lia. cbn [skipn].
    rewrite firstn_app, length_skipn.
    replace (length name - i + 9 - (length name - i))%nat with 9%nat by lia.
    rewrite existsb_app. apply orb_true_iff. right. reflexivity. }
  rewrite Hex. reflexivity.
Qed.

Lemma md_is_ascii : is_ascii (py ".md").
Proof. unfold is_ascii. repeat constructor. Qed.

Lemma md_unregistered (lower : str -> str) :
  lowers_ascii lower -> ext_to_lang lower !! py ".md" = None.
Proof. intros Hlow. rewrite (ext_to_lang_ascii lower Hlow). vm_compute. reflexivity. Qed.

Lemma report_extension (lower : str -> str) (root_dir : str) :
  lowers_ascii lower -> extension lower (output_filename root_dir) = py ".md".
Proof.
  intros Hlow. unfold extension, output_filename.
  rewrite splitext_report. cbn [snd]. rewrite (Hlow _ md_is_ascii). reflexivity.
Qed.

Lemma classify_md (lower : str -> str) (script_name dp : str) (f : File) :
  lowers_ascii lower ->
  extension lower (f_name f) = py ".md" ->
  classify lower script_name dp f = None.
Proof.
  intros Hlow Hext. apply classify_unrecognized. rewrite Hext.
  apply md_unregistered, Hlow.
Qed.

(** C10: every record of every bucket has a (lower-cased) extension that is
    a key of the registry, and the key of the bucket's own label; each step
    of the loop keeps it so.  Given that [str.lower] is right on ASCII text,
    [".md"] is not a key: a file of that extension leaves the buckets as they
    are, whatever reading it would give; the report's own name,
    [<root-dir-basename>.codebase.md], has that extension for every root;
    no record of a bucket has it; and the outcome of a run is the outcome on
    the tree without the [".md"] files. *)
Theorem buckets_hold_only_registered_extensions
    (lower upper : str -> str) (root_dir script_name : str) (open_fails print_fails : bool) :
  ((forall tree lang r,
       In r (bucket_of lang (collect lower root_dir script_name tree)) ->
       ext_to_lang lower !! extension lower (r_filename r) = Some lang)
   /\ (forall dirpath files_by_lang f,
       (forall l r, In r (bucket_of l files_by_lang) ->
                    is_Some (ext_to_lang lower !! extension lower (r_filename r))) ->
       forall l r, In r (bucket_of l (visit_file lower script_name dirpath files_by_lang f)) ->
                   is_Some (ext_to_lang lower !! extension lower (r_filename r))))
  /\ (lowers_ascii lower ->
      (forall filename dirpath files_by_lang outcome,
          extension lower filename = py ".md" ->
          visit_file lower script_name dirpath files_by_lang (mkFile filename outcome)
          = files_by_lang)
      /\ extension lower (output_filename root_dir) = py ".md"
      /\ (forall tree lang r,
          In r (bucket_of lang (collect lower root_dir script_name tree)) ->
          extension lower (r_filename r) <> py ".md")
      /\ (forall tree,
          generate_codebase_markdown lower upper root_dir script_name open_fails print_fails tree
          = generate_codebase_markdown lower upper root_dir script_name open_fails print_fails
              (keep_files
                 (fun f => negb (bool_decide (extension lower (f_name f) = py ".md")))
                 tree))).
Proof.
  assert (Hkey : forall tree lang r,
             In r (bucket_of lang (collect lower root_dir script_name tree)) ->
             ext_to_lang lower !! extension lower (r_filename r) = Some lang).
  { intros tree lang r Hr.
    apply bucket_member, trace_member in Hr as [e (Hin & Hel & -> & ->)].
    apply eligible_parts in Hel as [Hrec _]. apply recognized_lang_of, Hrec. }
  split; [split; [exact Hkey|]|].
  - intros dirpath files_by_lang f Hinv l r.
    rewrite visit_file_classify.
    destruct (classify lower script_name dirpath f) as [[lang r']|] eqn:Hcl;
      [|exact (Hinv l r)].
    change (append_all (option_list (Some (lang, r'))) files_by_lang)
      with (bucket_append lang r' files_by_lang).
    rewrite bucket_append_read, in_app_iff. intros [Hold|Hnew]; [eapply Hinv, Hold|].
    destruct (bool_decide (lang = l)); [|destruct Hnew].
    destruct Hnew as [<-|[]].
    apply classify_Some in Hcl as (Hext & _ & _ & -> & _).
    eexists. exact Hext.
  - intros Hlow. split; [|split; [|split]].
    + intros filename dirpath files_by_lang outcome Hext.
      rewrite visit_file_classify, classify_md; [reflexivity|exact Hlow|exact Hext].
    + apply report_extension, Hlow.
    + intros tree lang r Hr Hmd. apply Hkey in Hr. rewrite Hmd in Hr.
      rewrite md_unregistered in Hr by exact Hlow. discriminate Hr.
    + intros tree. symmetry.
      apply same_trace_same_run; [apply keep_files_report_is_directory|].
      apply (proj1 (keep_files_trace lower script_name _
        (fun f dp Hk => classify_md lower script_name dp f Hlow
                          (proj1 (bool_decide_eq_true _)
                             (proj1 (negb_false_iff _) Hk))))).
Qed.

Lemma buckets_hold_only_registered_extensions_witness :
  extension ascii_lower (output_filename demo_root) = py ".md"
  /\ visit_file ascii_lower demo_script demo_root []
       (mkFile (py "proj.codebase.md") (ReadOk (py "old report"))) = []
  /\ ext_to_lang ascii_lower !! extension ascii_lower (py "main.py") = Some (py "Python").
Proof.
  destruct (buckets_hold_only_registered_extensions
              ascii_lower ascii_upper demo_root demo_script false false) as [[Hkey _] Hmd].
  destruct (Hmd (fun s _ => eq_refl)) as (Hskip & Hreport & _ & _).
  split; [exact Hreport|split].
  - apply Hskip. vm_compute. reflexivity.
  - apply (Hkey demo_tree (py "Python") (mkRecord (py "main.py") demo_root (py "print(1)"))).
    vm_compute. left. reflexivity.
Defined.

(** ** The tree after a run *)

Section AfterRun.
Variable keep : File -> bool.
Variable report : File.
Hypothesis report_dropped : keep report = false.

Lemma filter_overwritten (hit : File -> bool) (fs : list File) :
  (forall f, hit f = true -> keep f = false) ->
  List.filter keep (List.map (fun f => if hit f then report else f) fs)
  = List.filter keep fs.
Proof.
  intros Hhit. induction fs as [|f fs IH]; [reflexivity|].
  cbn [List.map List.filter]. destruct (hit f) eqn:Hf.
  - rewrite report_dropped, (Hhit f Hf). exact IH.
  - rewrite IH. reflexivity.
Qed.

Lemma filter_inserted (pos : nat) (fs : list File) :
  List.filter keep (firstn pos fs ++ [report] ++ skipn pos fs) = List.filter keep fs.
Proof.
  rewrite !List.filter_app. cbn [List.filter]. rewrite report_dropped.
  cbn [app]. rewrite <- List.filter_app, firstn_skipn. reflexivity.
Qed.
End AfterRun.

(** C7: a second run over the same root produces the same outcome, so the
    same document byte for byte.  Between the two runs the tree changes in
    one place, the report written into the root by the first run
    (overwriting a file of that name, or listed at any position [pos] of
    the root's listing); the second run skips it, its extension being
    [".md"].  The listing order of the tree is part of the tree, the
    surroundings answer [open] the same way both times, and [str.lower] is
    assumed right on ASCII text. *)
Theorem second_run_identical
    (lower upper : str -> str) (root_dir script_name : str) (open_fails print_fails : bool)
    (tree : Dir) (pos : nat) :
  lowers_ascii lower ->
  let first_run := generate_codebase_markdown lower upper root_dir script_name open_fails print_fails tree in
  generate_codebase_markdown lower upper root_dir script_name open_fails print_fails
    (after_run pos first_run (output_filename root_dir) tree)
  = first_run.
Proof.
  intros Hlow first_run. unfold first_run, after_run.
  destruct (out_document _) as [document|]; [|reflexivity].
  destruct tree as [files subdirs].
  apply same_trace_same_run; [reflexivity|]. cbn [os_walk].
  rewrite !appends_of_cons. f_equal.
  set (out := output_filename root_dir).
  set (report := mkFile out _).
  set (keep := fun f => negb (named out f)).
  assert (Hskip : forall f dp, keep f = false -> classify lower script_name dp f = None).
  { intros f dp Hk. unfold keep, named in Hk.
    apply negb_false_iff, bool_decide_eq_true in Hk.
    apply classify_md; [exact Hlow|]. rewrite Hk. apply report_extension, Hlow. }
  assert (Hreport : keep report = false).
  { unfold keep, named, report. cbn [f_name].
    rewrite bool_decide_true by reflexivity. reflexivity. }
  rewrite <- (files_trace_filter lower script_name keep root_dir _ Hskip).
  rewrite <- (files_trace_filter lower script_name keep root_dir files Hskip).
  f_equal. destruct (existsb (named out) files).
  - apply filter_overwritten; [exact Hreport|].
    intros f Hf. unfold keep. rewrite Hf. reflexivity.
  - apply filter_inserted, Hreport.
Qed.

Lemma second_run_identical_witness :
  generate_codebase_markdown ascii_lower ascii_upper demo_root demo_script false false
    (after_run 2
       (generate_codebase_markdown ascii_lower ascii_upper demo_root demo_script false false
          (keep_files (fun f => negb (named (py "proj.codebase.md") f)) demo_tree))
       (output_filename demo_root)
       (keep_files (fun f => negb (named (py "proj.codebase.md") f)) demo_tree))
  = generate_codebase_markdown ascii_lower ascii_upper demo_root demo_script false false
      (keep_files (fun f => negb (named (py "proj.codebase.md") f)) demo_tree).
Proof.
  apply (second_run_identical ascii_lower ascii_upper demo_root demo_script false false
           (keep_files (fun f => negb (named (py "proj.codebase.md") f)) demo_tree) 2).
  intros s _. reflexivity.
Defined.

(** * Scenarios of the specification, run on the model *)

Example splitext_examples :
  os_path.splitext (py "a.tar.GZ") = (py "a.tar", py ".GZ")
  /\ os_path.splitext (py ".bashrc") = (py ".bashrc", [])
  /\ os_path.splitext (py "..x.py") = (py "..x", py ".py")
  /\ os_path.splitext (py "Makefile") = (py "Makefile", [])
  /\ os_path.join (py "/w") (py "src") = py "/w/src"
  /\ os_path.join (py "/") (py "src") = py "/src"
  /\ os_path.basename (py "/home/u/proj") = py "proj".
Proof. repeat split; vm_compute; reflexivity. Qed.

(** One recognized file [main.py] holding [print(1)]: one Python section
    with that one entry. *)
Example scenario_single_file :
  run_sections (one_dir [("main.py", "print(1)")]%string NoDirs)
  = [(py "Python", [mkRecord (py "main.py") (py "/w") (py "print(1)")])].
Proof. vm_compute. reflexivity. Qed.

(** [node_modules/lib.js] and [app.js] in the root: one JavaScript entry. *)
Example scenario_node_modules :
  run_sections
    (one_dir [("app.js", "a")]%string
       (ConsDir (py "node_modules") (one_dir [("lib.js", "b")]%string NoDirs) NoDirs))
  = [(py "JavaScript", [mkRecord (py "app.js") (py "/w") (py "a")])].
Proof. vm_compute. reflexivity. Qed.

(** [image.png] never appears and creates no section. *)
Example scenario_unrecognized :
  run_sections (one_dir [("image.png", "binary")]%string NoDirs) = [].
Proof. vm_compute. reflexivity. Qed.

(** The larger language comes first, whatever the discovery order. *)
Example scenario_volume_order :
  List.map fst (run_sections (one_dir [("b.rs", "12345"); ("a.py", "1234567890")]%string NoDirs))
  = [py "Python"; py "Rust"].
Proof. vm_compute. reflexivity. Qed.

(** Equal volumes: discovery order. *)
Example scenario_tie :
  List.map fst (run_sections (one_dir [("b.rs", "12345"); ("a.py", "abcde"); ("c.go", "xy")]%string NoDirs))
  = [py "Rust"; py "Python"; py "Go"].
Proof. vm_compute. reflexivity. Qed.

(** The demo tree: the script, the old report, the image, the excluded
    directory and the unreadable file leave no record. *)
Example scenario_demo :
  List.map (fun sec => (fst sec, List.map r_filename (snd sec)))
    (sections ascii_lower demo_script demo_root demo_tree)
  = [(py "Python", [py "main.py"; py "util.py"]);
     (py "C", [py "a.H"]);
     (py "JavaScript", [py "app.js"])].
Proof. vm_compute. reflexivity. Qed.

(** Self-exclusion is by file name alone: a file elsewhere in the tree that
    bears the script's name is skipped as well. *)
Example scenario_same_name_in_subdirectory :
  run_sections
    (one_dir [("main.py", "m")]%string
       (ConsDir (py "sub") (one_dir [("search_copy.py", "copy")]%string NoDirs) NoDirs))
  = [(py "Python", [mkRecord (py "main.py") (py "/w") (py "m")])].
Proof. vm_compute. reflexivity. Qed.

(** Pruning applies to the subdirectories met during the walk; the root is
    walked whatever its own name is. *)
Example scenario_root_named_build :
  sections ascii_lower (py "search_copy.py") (py "/home/u/build")
    (one_dir [("main.py", "m")]%string NoDirs)
  = [(py "Python", [mkRecord (py "main.py") (py "/home/u/build") (py "m")])].
Proof. vm_compute. reflexivity. Qed.

(** * Further properties of the script *)

(** ** The registry holds the declared extensions and nothing else *)

Section RegistryDomain.
Variable lower : str -> str.

Lemma invert_loop_sound (decls : list (str * list str)) (m : gmap str str)
    (k lang : str) :
  foldl (fun m '(lang, exts) => register_exts lower lang exts m) m decls !! k
    = Some lang ->
  m !! k = Some lang
  \/ exists exts e, In (lang, exts) decls /\ In e exts /\ lower e = k.
Proof.
  revert m. induction decls as [|[l es] decls IH]; intros m Hk; cbn [foldl] in Hk.
  - left; exact Hk.
  - destruct (IH _ Hk) as [Hreg|(exts & e & Hin & He & Hlow)].
    + destruct (In_dec (fun a b : str => decide (a = b)) k (List.map lower es))
        as [Hcl|Hun].
      * rewrite register_exts_claimed in Hreg by exact Hcl.
        injection Hreg as ->. apply in_map_iff in Hcl as [e [Hlow He]].
        right. exists es, e. split; [left; reflexivity|split; assumption].
      * rewrite register_exts_unclaimed in Hreg by exact Hun. left; exact Hreg.
    + right. exists exts, e. split; [right; exact Hin|split; assumption].
Qed.

Lemma invert_loop_complete (decls : list (str * list str)) (m : gmap str str)
    (k : str) :
  is_Some (m !! k)
  \/ (exists lang exts e, In (lang, exts) decls /\ In e exts /\ lower e = k) ->
  is_Some (foldl (fun m '(lang, exts) => register_exts lower lang exts m) m decls !! k).
Proof.
  revert m. induction decls as [|[l es] decls IH]; intros m Hk; cbn [foldl].
  - destruct Hk as [Hm|(lang & exts & e & [] & _)]. exact Hm.
  - apply IH.
    destruct (In_dec (fun a b : str => decide (a = b)) k (List.map lower es))
      as [Hcl|Hun].
    + left. rewrite register_exts_claimed by exact Hcl. eexists; reflexivity.
    + rewrite register_exts_unclaimed by exact Hun.
      destruct Hk as [Hm|(lang & exts & e & [Heq|Hin] & He & Hlow)].
      * left; exact Hm.
      * exfalso. apply Hun. injection Heq as -> ->. rewrite <- Hlow.
        apply in_map, He.
      * right. exists lang, exts, e. auto.
Qed.
End RegistryDomain.

(** X1: the lookup built by the inversion loop has a key exactly for the
    lower-cased forms of the declared extensions, and the label found under a
    key is one that declares an extension lowering to it. *)
Theorem registry_keys_are_declared_extensions
    (lower : str -> str) (decls : list (str * list str)) (k : str) :
  (is_Some (invert lower decls !! k)
   <-> exists lang exts e, In (lang, exts) decls /\ In e exts /\ lower e = k)
  /\ (forall lang, invert lower decls !! k = Some lang ->
        exists exts e, In (lang, exts) decls /\ In e exts /\ lower e = k).
Proof.
  assert (Hsound : forall lang, invert lower decls !! k = Some lang ->
            exists exts e, In (lang, exts) decls /\ In e exts /\ lower e = k).
  { intros lang Hk. unfold invert in Hk.
    destruct (invert_loop_sound lower decls ∅ k lang Hk) as [Hempty|H]; [|exact H].
    rewrite lookup_empty in Hempty. discriminate Hempty. }
  split; [split|exact Hsound].
  - intros [lang Hk]. exists lang. apply Hsound, Hk.
  - intros H. unfold invert. apply invert_loop_complete. right. exact H.
Qed.

(** ** Buckets, sections and the order inside them *)

Lemma filter_map_fused {A B : Type} (g : A -> B) (p : B -> bool) (l : list A) :
  List.filter p (List.map g l) = List.map g (List.filter (fun a => p (g a)) l).
Proof.
  induction l as [|a l IH]; [reflexivity|]. cbn [List.map List.filter].
  destruct (p (g a)); cbn [List.map]; rewrite IH; reflexivity.
Qed.

Lemma filter_filter_and {A : Type} (p q : A -> bool) (l : list A) :
  List.filter q (List.filter p l) = List.filter (fun a => p a && q a) l.
Proof.
  induction l as [|a l IH]; [reflexivity|]. cbn [List.filter].
  destruct (p a); cbn [List.filter andb]; [destruct (q a)|]; rewrite IH; reflexivity.
Qed.


(** X3: inside a section the files come in the order the walk discovers
    them: the bucket of a label is the enumeration of the whole tree (a
    directory's own files in listing order, then its subdirectories in
    listing order), restricted to the eligible files of that label. *)
Theorem bucket_in_discovery_order
    (lower : str -> str) (root_dir script_name : str) (tree : Dir) (lang : str) :
  bucket_of lang (collect lower root_dir script_name tree)
  = List.map entry_record
      (List.filter
         (fun e => eligible lower script_name e
                   && bool_decide (lang_of lower (f_name (e_file e)) = lang))
         (all_files [] root_dir tree)).
Proof.
  rewrite bucket_is_trace_part, trace_is_eligible.
  rewrite (filter_map_fused
             (fun e => (lang_of lower (f_name (e_file e)), entry_record e))
             (fun x => bool_decide (fst x = lang))).
  rewrite List.map_map. cbn [fst snd]. rewrite filter_filter_and. reflexivity.
Qed.



(** The path of a directory of the enumeration is the path of the top
    joined with the names on the way down. *)
Lemma all_files_paths :
  (forall (d : Dir) (anc : list str) (top : str) (e : Located),
      In e (all_files anc top d) ->
      exists names, e_ancestors e = anc ++ names
                    /\ e_dirpath e = foldl os_path.join top names)
  /\ (forall (sd : Subdirs) (anc : list str) (top : str) (e : Located),
      In e (all_files_sub anc top sd) ->
      exists names, e_ancestors e = anc ++ names
                    /\ e_dirpath e = foldl os_path.join top names).
Proof.
  apply Dir_Subdirs_ind.
  - intros fs sd IH anc top e Hin. cbn [all_files] in Hin.
    apply in_app_or in Hin as [Hin|Hin]; [|apply IH, Hin].
    apply in_map_iff in Hin as [f [<- _]]. exists []. cbn [e_ancestors e_dirpath foldl].
    rewrite app_nil_r. split; reflexivity.
  - intros anc top e [].
  - intros name d IHd rest IHrest anc top e Hin. cbn [all_files_sub] in Hin.
    apply in_app_or in Hin as [Hin|Hin]; [|apply IHrest, Hin].
    destruct (IHd _ _ _ Hin) as (names & Hanc & Hpath).
    exists (name :: names). rewrite Hanc, <- app_assoc. split; [reflexivity|exact Hpath].
Qed.

Lemma under_excluded_Forall (names : list str) :
  under_excluded names = false -> Forall (fun n => not_excluded n = true) names.
Proof.
  unfold under_excluded, not_excluded. induction names as [|n names IH]; intros H.
  - constructor.
  - cbn [existsb] in H. apply orb_false_iff in H as [Hn Hrest].
    constructor; [rewrite Hn; reflexivity|apply IH, Hrest].
Qed.

(** X5: the directory path recorded with a file is the root path joined,
    one [os.path.join] at a time, with the names of the subdirectories on
    the way down to the file, none of which is excluded; the file itself is
    listed in that directory and was read with the recorded content. *)
Theorem record_paths_descend_from_root
    (lower : str -> str) (root_dir script_name : str) (tree : Dir)
    (lang : str) (r : FileRecord) :
  In r (bucket_of lang (collect lower root_dir script_name tree)) ->
  exists names,
    r_dirpath r = foldl os_path.join root_dir names
    /\ Forall (fun n => not_excluded n = true) names
    /\ In (mkLocated names (r_dirpath r) (mkFile (r_filename r) (ReadOk (r_content r))))
          (all_files [] root_dir tree).
Proof.
  intros Hr. apply bucket_member, trace_member in Hr as [e (Hin & Hel & -> & ->)].
  destruct (proj1 all_files_paths _ _ _ _ Hin) as (names & Hanc & Hpath).
  apply eligible_parts in Hel as (_ & Hex & _ & Hread).
  cbn [app] in Hanc. exists names. cbn [entry_record r_dirpath r_filename r_content].
  split; [exact Hpath|split].
  - apply under_excluded_Forall. rewrite <- Hanc. exact Hex.
  - destruct e as [anc dp [name outcome]]. cbn in *. subst anc.
    unfold readable, content_of in *. cbn in *.
    destruct outcome; [exact Hin|discriminate Hread].
Qed.

Lemma record_paths_descend_from_root_witness :
  exists names,
    py "/home/u/proj/sub" = foldl os_path.join demo_root names
    /\ Forall (fun n => not_excluded n = true) names
    /\ In (mkLocated names (py "/home/u/proj/sub") (mkFile (py "a.H") (ReadOk (py "hdr"))))
          (all_files [] demo_root demo_tree).
Proof.
  apply (record_paths_descend_from_root ascii_lower demo_root demo_script demo_tree
           (py "C") (mkRecord (py "a.H") (py "/home/u/proj/sub") (py "hdr"))).
  vm_compute. left. reflexivity.
Defined.

(** ** What [rfind], [splitext] and [basename] return *)

Lemma rfind_neg (c : char) (p : str) : os_path.rfind c p < 0 -> ~ In c p.
Proof.
  induction p as [|x p IH]; intros Hr; [intros []|].
  cbn [os_path.rfind] in Hr.
  destruct (Z.leb_spec 0 (os_path.rfind c p)) as [Hge|Hlt]; [lia|].
  destruct (N.eqb_spec x c) as [Heq|Hne]; [lia|].
  intros [Hx|Hin]; [exact (Hne Hx)|exact (IH Hlt Hin)].
Qed.

Lemma rfind_none (c : char) (p : str) : ~ In c p -> os_path.rfind c p = -1.
Proof.
  induction p as [|x p IH]; intros Hnin; [reflexivity|].
  cbn [os_path.rfind]. rewrite IH by (intros H; apply Hnin; right; exact H).
  cbn [Z.leb]. change (0 <=? -1) with false. cbv iota.
  destruct (N.eqb_spec x c) as [Heq|Hne]; [|reflexivity].
  exfalso. apply Hnin. left; exact Heq.
Qed.

(** A found index splits the string at the last occurrence. *)
Lemma rfind_split (c : char) (p : str) :
  0 <= os_path.rfind c p ->
  exists a b : str, p = a ++ c :: b /\ len a = os_path.rfind c p /\ ~ In c b.
Proof.
  unfold len. induction p as [|x p IH]; cbn [os_path.rfind]; [lia|].
  destruct (Z.leb_spec 0 (os_path.rfind c p)) as [Hge|Hlt].
  - intros _. destruct (IH Hge) as (a & b & Hp & Hlen & Hb).
    exists (x :: a), b. rewrite Hp at 1. cbn [app length]. repeat split; [lia|exact Hb].
  - destruct (N.eqb_spec x c) as [Heq|Hne]; [|lia].
    intros _. exists [], p. subst x. repeat split. apply rfind_neg, Hlt.
Qed.

Lemma rfind_repeat (c : char) (n : nat) :
  os_path.rfind c (repeat c n) = Z.of_nat n - 1.
Proof.
  induction n as [|n IH]; [reflexivity|].
  cbn [repeat os_path.rfind]. rewrite IH, N.eqb_refl.
  destruct (Z.leb_spec 0 (Z.of_nat n - 1)); lia.
Qed.

(** X6: what [splitext] returns: the two parts put together are the name;
    the extension is empty, or a dot followed by characters none of which is
    a dot or a path separator. *)
Theorem splitext_shape (p : str) :
  fst (os_path.splitext p) ++ snd (os_path.splitext p) = p
  /\ (snd (os_path.splitext p) = []
      \/ exists rest, snd (os_path.splitext p) = extsep :: rest
                      /\ ~ In extsep rest /\ ~ In sep rest).
Proof.
  unfold os_path.splitext.
  destruct (Z.ltb_spec (os_path.rfind sep p) (os_path.rfind extsep p)) as [Hlt|Hge];
    [|cbn [fst snd]; split; [apply app_nil_r|left; reflexivity]].
  destruct (existsb _ _);
    [|cbn [fst snd]; split; [apply app_nil_r|left; reflexivity]].
  cbn [fst snd]. split; [apply firstn_skipn|]. right.
  pose proof (rfind_bounds sep p) as Hsep.
  destruct (rfind_split extsep p) as (a & b & Hp & Hlen & Hb); [lia|].
  exists b. unfold len in Hlen.
  assert (Hskip : skipn (Z.to_nat (os_path.rfind extsep p)) p = extsep :: b).
  { rewrite <- Hlen, Nat2Z.id. rewrite Hp at 1.
    rewrite skipn_app, skipn_all, Nat.sub_diag. reflexivity. }
  split; [exact Hskip|split; [exact Hb|]].
  apply rfind_neg.
  destruct (Z.leb_spec 0 (os_path.rfind sep b)) as [Hsb|Hsb]; [exfalso|lia].
  assert (Hs : os_path.rfind sep p = len a + (os_path.rfind sep b + 1)).
  { rewrite Hp at 1. rewrite rfind_app. cbn [os_path.rfind].
    destruct (Z.leb_spec 0 (os_path.rfind sep b)) as [_|Habs]; [|lia].
    destruct (Z.leb_spec 0 (os_path.rfind sep b + 1)) as [_|Habs]; [reflexivity|lia]. }
  unfold len in Hs. lia.
Qed.

Lemma firstn_repeat_le (c : char) (k n : nat) :
  (k <= n)%nat -> firstn k (repeat c n) = repeat c k.
Proof.
  revert n. induction k as [|k IH]; intros n Hk; [reflexivity|].
  destruct n as [|n]; [lia|]. cbn [repeat firstn]. rewrite IH by lia. reflexivity.
Qed.

(** A name made of leading dots and a dot-free rest has no extension. *)
Lemma splitext_dots_only (n : nat) (rest : str) :
  ~ In extsep rest -> ~ In sep rest ->
  snd (os_path.splitext (repeat extsep n ++ rest)) = [].
Proof.
  intros Hdot Hsep. unfold os_path.splitext.
  assert (Hs : os_path.rfind sep (repeat extsep n ++ rest) = -1).
  { apply rfind_none. rewrite in_app_iff. intros [H|H]; [|exact (Hsep H)].
    apply repeat_spec in H. discriminate H. }
  assert (Hd : os_path.rfind extsep (repeat extsep n ++ rest) = Z.of_nat n - 1).
  { rewrite rfind_app, (rfind_none extsep rest Hdot).
    change (0 <=? -1) with false. cbv iota. apply rfind_repeat. }
  rewrite Hs, Hd.
  destruct (Z.ltb_spec (-1) (Z.of_nat n - 1)) as [Hlt|Hge]; [|reflexivity].
  assert (Hslice : os_path.slice (repeat extsep n ++ rest) (-1 + 1) (Z.of_nat n - 1)
                   = repeat extsep (n - 1)).
  { unfold os_path.slice. change (Z.to_nat (-1 + 1)) with 0%nat.
    replace (Z.to_nat (Z.of_nat n - 1 - (-1 + 1))) with (n - 1)%nat by lia.
    change (skipn 0 (repeat extsep n ++ rest)) with (repeat extsep n ++ rest).
    rewrite firstn_app, repeat_length.
    replace (n - 1 - n)%nat with 0%nat by lia. cbn [firstn]. rewrite app_nil_r.
    apply firstn_repeat_le. lia. }
  rewrite Hslice.
  assert (Hex : existsb (fun ch => negb (N.eqb ch extsep)) (repeat extsep (n - 1)) = false).
  { clear. generalize (n - 1)%nat. intros m.
    induction m as [|m IH]; [reflexivity|]. cbn [repeat existsb].
    rewrite N.eqb_refl. exact IH. }
  rewrite Hex. reflexivity.
Qed.

Lemma splitext_no_dot (p : str) : ~ In extsep p -> snd (os_path.splitext p) = [].
Proof.
  intros Hdot. unfold os_path.splitext. rewrite (rfind_none extsep p Hdot).
  pose proof (rfind_bounds sep p).
  destruct (Z.ltb_spec (os_path.rfind sep p) (-1)); [lia|reflexivity].
Qed.

Lemma empty_extension_unregistered (lower : str -> str) :
  lowers_ascii lower -> ext_to_lang lower !! lower [] = None.
Proof.
  intros Hlow. rewrite (Hlow [] (List.Forall_nil _)), (ext_to_lang_ascii lower Hlow).
  vm_compute. reflexivity.
Qed.

(** X7: a file without an extension is never collected: a name without any
    dot ([Makefile]) and a name whose only dots are leading ones
    ([.gitignore]) leave the buckets as they are, whatever reading the file
    would give.  [str.lower] is assumed right on ASCII text. *)
Theorem extensionless_files_skipped
    (lower : str -> str) (script_name dirpath : str)
    (files_by_lang : dict (list FileRecord)) (filename : str) (outcome : ReadOutcome) :
  lowers_ascii lower ->
  (~ In extsep filename
   \/ exists n rest, filename = repeat extsep n ++ rest
                     /\ ~ In extsep rest /\ ~ In sep rest) ->
  visit_file lower script_name dirpath files_by_lang (mkFile filename outcome)
  = files_by_lang.
Proof.
  intros Hlow Hname.
  assert (Hext : snd (os_path.splitext filename) = []).
  { destruct Hname as [Hdot|(n & rest & -> & Hdot & Hsep)].
    - apply splitext_no_dot, Hdot.
    - apply splitext_dots_only; assumption. }
  rewrite visit_file_classify, classify_unrecognized; [reflexivity|].
  cbn [f_name]. unfold extension. rewrite Hext.
  apply empty_extension_unregistered, Hlow.
Qed.

Lemma extensionless_files_skipped_witness :
  visit_file ascii_lower demo_script demo_root [] (mkFile (py ".gitignore") (ReadOk (py "*.o")))
  = [].
Proof.
  apply (extensionless_files_skipped ascii_lower demo_script demo_root []
           (py ".gitignore") (ReadOk (py "*.o"))).
  - intros s _. reflexivity.
  - right. exists 1%nat, (py "gitignore"). split; [reflexivity|].
    split; vm_compute; intuition discriminate.
Defined.

Lemma basename_no_sep (p : str) : ~ In sep (os_path.basename p).
Proof.
  unfold os_path.basename.
  destruct (Z.leb_spec 0 (os_path.rfind sep p)) as [Hge|Hlt].
  - destruct (rfind_split sep p Hge) as (a & b & Hp & Hlen & Hb).
    unfold len in Hlen. rewrite <- Hlen.
    replace (Z.to_nat (Z.of_nat (length a) + 1)) with (length a + 1)%nat by lia.
    rewrite Hp, skipn_app, skipn_all2 by lia.
    replace (length a + 1 - length a)%nat with 1%nat by lia. exact Hb.
  - pose proof (rfind_bounds sep p).
    replace (os_path.rfind sep p) with (-1) by lia.
    change (~ In sep p). apply rfind_neg. lia.
Qed.

Lemma basename_after_sep (a b : str) :
  ~ In sep b -> os_path.basename (a ++ sep :: b) = b.
Proof.
  intros Hb. unfold os_path.basename. rewrite rfind_app.
  cbn [os_path.rfind]. rewrite (rfind_none sep b Hb).
  change (0 <=? -1) with false. cbv iota. rewrite N.eqb_refl.
  change (0 <=? 0) with true. cbv iota. unfold len.
  replace (Z.to_nat (Z.of_nat (length a) + 0 + 1)) with (length a + 1)%nat by lia.
  rewrite skipn_app, skipn_all2 by lia.
  replace (length a + 1 - length a)%nat with 1%nat by lia. reflexivity.
Qed.

Lemma basename_plain (b : str) : ~ In sep b -> os_path.basename b = b.
Proof.
  intros Hb. unfold os_path.basename. rewrite (rfind_none sep b Hb). reflexivity.
Qed.

Lemma output_filename_no_sep (root_dir : str) : ~ In sep (output_filename root_dir).
Proof.
  unfold output_filename, project_name. rewrite in_app_iff.
  intros [H|H]; [exact (basename_no_sep root_dir H)|].
  vm_compute in H. intuition discriminate.
Qed.

Lemma endswith_sep_spec (a : str) :
  os_path.endswith_sep a = true <-> exists b, a = b ++ [sep].
Proof.
  unfold os_path.endswith_sep. split.
  - destruct (last a) as [x|] eqn:Hlast; [|discriminate].
    intros Hx. apply N.eqb_eq in Hx. subst x.
    apply last_Some in Hlast. exact Hlast.
  - intros [b ->]. rewrite last_snoc. apply N.eqb_refl.
Qed.

(** X8: the report is written directly into the root directory.  Its name
    [<basename of the root>.codebase.md] holds no path separator, and the
    base name of the path written is that name, whatever the root path.  The
    path written is the name alone for an empty root path, the root path
    followed by the name when the root path ends with a separator, and the
    root path, one separator and the name otherwise. *)
Theorem report_written_in_root (root_dir : str) :
  ~ In sep (output_filename root_dir)
  /\ os_path.basename (output_path root_dir) = output_filename root_dir
  /\ (root_dir = [] -> output_path root_dir = output_filename root_dir)
  /\ (forall a, root_dir = a ++ [sep] ->
        output_path root_dir = root_dir ++ output_filename root_dir)
  /\ (root_dir <> [] -> (forall a, root_dir <> a ++ [sep]) ->
        output_path root_dir = root_dir ++ [sep] ++ output_filename root_dir).
Proof.
  pose proof (output_filename_no_sep root_dir) as Hout.
  assert (Hstart : os_path.startswith_sep (output_filename root_dir) = false).
  { unfold os_path.startswith_sep.
    destruct (output_filename root_dir) as [|x out]; [reflexivity|].
    destruct (N.eqb_spec x sep) as [->|]; [|reflexivity].
    exfalso. apply Hout. left; reflexivity. }
  assert (Hempty : root_dir = [] -> output_path root_dir = output_filename root_dir).
  { intros Hroot. unfold output_path, os_path.join. rewrite Hstart.
    rewrite (bool_decide_true (root_dir = [])) by exact Hroot. cbn [orb].
    rewrite Hroot at 1. reflexivity. }
  assert (Hslash : forall a, root_dir = a ++ [sep] ->
            output_path root_dir = root_dir ++ output_filename root_dir).
  { intros a Hroot. unfold output_path, os_path.join. rewrite Hstart.
    rewrite (proj2 (endswith_sep_spec root_dir)) by (exists a; exact Hroot).
    rewrite orb_true_r. reflexivity. }
  assert (Hplain : root_dir <> [] -> (forall a, root_dir <> a ++ [sep]) ->
            output_path root_dir = root_dir ++ [sep] ++ output_filename root_dir).
  { intros Hne Hnoslash. unfold output_path, os_path.join. rewrite Hstart.
    rewrite (bool_decide_false (root_dir = [])) by exact Hne. cbn [orb].
    destruct (os_path.endswith_sep root_dir) eqn:Hend; [|reflexivity].
    apply endswith_sep_spec in Hend as [a Ha]. destruct (Hnoslash a Ha). }
  split; [exact Hout|split; [|split; [exact Hempty|split; [exact Hslash|exact Hplain]]]].
  destruct (decide (root_dir = [])) as [Hroot|Hne].
  - rewrite (Hempty Hroot). apply basename_plain, Hout.
  - destruct (os_path.endswith_sep root_dir) eqn:Hend.
    + apply endswith_sep_spec in Hend as [a Ha]. rewrite (Hslash a Ha).
      rewrite Ha at 1. rewrite <- app_assoc. apply basename_after_sep, Hout.
    + rewrite Hplain.
      * apply basename_after_sep, Hout.
      * exact Hne.
      * intros a Ha.
        rewrite (proj2 (endswith_sep_spec root_dir)) in Hend by (exists a; exact Ha).
        discriminate Hend.
Qed.

Lemma report_written_in_root_witness :
  output_path (py "/") = py "/" ++ output_filename (py "/")
  /\ output_path demo_root = demo_root ++ [sep] ++ output_filename demo_root.
Proof.
  destruct (report_written_in_root (py "/")) as (_ & _ & _ & Hslash & _).
  destruct (report_written_in_root demo_root) as (_ & _ & _ & _ & Hplain).
  split.
  - apply (Hslash []). reflexivity.
  - apply Hplain.
    + discriminate.
    + intros a Ha. apply (f_equal (@last N)) in Ha. rewrite last_snoc in Ha.
      vm_compute in Ha. discriminate Ha.
Defined.

(** ** The banner outside its comfortable range *)

Lemma floor_half_nonpos (z : Z) : z <= 0 -> z `div` 2 <= 0 /\ z - z `div` 2 <= 0.
Proof.
  intros Hz. pose proof (Z.div_mod z 2 ltac:(lia)).
  pose proof (Z.mod_pos_bound z 2 ltac:(lia)). lia.
Qed.

Lemma str_mul_nonpos (c : char) (n : Z) : n <= 0 -> str_mul c n = [].
Proof. intros Hn. unfold str_mul. replace (Z.to_nat n) with 0%nat by lia. reflexivity. Qed.

(** X9: a text that does not fit is never cut.  When the upper-cased text
    is [width - 2] characters long or longer, the middle line is the border,
    the whole text and the border, without padding, so it is as long as the
    text plus two and sticks out of the frame; the top and bottom lines keep
    the length [width], or two when [width] is smaller than that. *)
Theorem create_ascii_box_overflow
    (upper : str -> str) (text : str) (width : Z) (double_line : bool) :
  width - 2 <= len (upper text) ->
  exists top bottom,
    create_ascii_box upper text width double_line
    = top ++ [newline]
        ++ ([if double_line then 9553%N else 9474%N] ++ upper text
              ++ [if double_line then 9553%N else 9474%N]) ++ [newline]
        ++ bottom ++ [newline]
    /\ len top = Z.max width 2 /\ len bottom = Z.max width 2.
Proof.
  intros Hlen.
  destruct (floor_half_nonpos (width - len (upper text) - 2) ltac:(lia)) as [Hl Hr].
  exists ([if double_line then 9556%N else 9484%N]
            ++ str_mul (if double_line then 9552%N else 9472%N) (width - 2)
            ++ [if double_line then 9559%N else 9488%N]).
  exists ([if double_line then 9562%N else 9492%N]
            ++ str_mul (if double_line then 9552%N else 9472%N) (width - 2)
            ++ [if double_line then 9565%N else 9496%N]).
  split; [|split].
  - unfold create_ascii_box. destruct double_line; cbv zeta;
      rewrite (str_mul_nonpos space _ Hl), (str_mul_nonpos space _ Hr);
      cbn [app]; repeat rewrite <- app_assoc; reflexivity.
  - rewrite !len_app. unfold len at 1 3. cbn [length].
    destruct (Z.le_gt_cases 2 width) as [Hw|Hw].
    + rewrite len_str_mul by lia. lia.
    + rewrite str_mul_nonpos by lia. unfold len. cbn [length]. lia.
  - rewrite !len_app. unfold len at 1 3. cbn [length].
    destruct (Z.le_gt_cases 2 width) as [Hw|Hw].
    + rewrite len_str_mul by lia. lia.
    + rewrite str_mul_nonpos by lia. unfold len. cbn [length]. lia.
Qed.

Lemma create_ascii_box_overflow_witness :
  exists top bottom,
    create_ascii_box ascii_upper (py "JavaScript") 8 true
    = top ++ [newline]
        ++ ([9553%N] ++ ascii_upper (py "JavaScript") ++ [9553%N]) ++ [newline]
        ++ bottom ++ [newline]
    /\ len top = Z.max 8 2 /\ len bottom = Z.max 8 2.
Proof.
  apply (create_ascii_box_overflow ascii_upper (py "JavaScript") 8 true).
  vm_compute. discriminate.
Defined.

(** ** The banners of a report *)

Lemma ext_to_lang_declared (lower : str -> str) (k lang : str) :
  ext_to_lang lower !! k = Some lang -> exists exts, In (lang, exts) lang_extensions.
Proof.
  intros Hk. change (ext_to_lang lower) with (invert lower lang_extensions) in Hk.
  unfold invert in Hk.
  destruct (invert_loop_sound lower lang_extensions ∅ k lang Hk)
    as [Hempty|(exts & e & Hin & _)].
  - rewrite lookup_empty in Hempty. discriminate Hempty.
  - exists exts. exact Hin.
Qed.

Lemma create_ascii_box_ext (upper upper' : str -> str) (text : str) (width : Z)
    (double_line : bool) :
  upper text = upper' text ->
  create_ascii_box upper text width double_line
  = create_ascii_box upper' text width double_line.
Proof. intros H. unfold create_ascii_box. rewrite H. reflexivity. Qed.

(** Every declared label is ASCII and fits a banner of width 40. *)
Lemma declared_labels_fit :
  forallb (fun l => forallb (fun c => (c <? 128)%N) l
                    && bool_decide (List.map len (lines (create_ascii_box ascii_upper l 40 true))
                                    = [40; 40; 40]))
          (List.map fst lang_extensions) = true.
Proof. vm_compute. reflexivity. Qed.

Lemma forallb_is_ascii (s : str) : forallb (fun c => (c <? 128)%N) s = true -> is_ascii s.
Proof.
  intros H. unfold is_ascii. apply List.Forall_forall. intros c Hc.
  rewrite forallb_forall in H. apply N.ltb_lt, H, Hc.
Qed.

(** X10: in every report the banners are aligned: the overview banner and
    the banner of every language section written are three lines of exactly
    40 characters each.  The labels that reach a report are labels of the
    declared table, all of them ASCII and at most 38 characters long;
    [str.upper] is assumed right on ASCII text. *)
Theorem report_banners_aligned
    (lower upper : str -> str) (root_dir script_name : str) (tree : Dir) :
  uppers_ascii upper ->
  List.map len (lines (create_ascii_box upper (py "Project Codebase Overview") 40 false))
    = [40; 40; 40]
  /\ (forall lang bucket,
        In (lang, bucket) (sections lower script_name root_dir tree) ->
        List.map len (lines (create_ascii_box upper lang 40 true)) = [40; 40; 40]).
Proof.
  intros Hup. split.
  - rewrite (create_ascii_box_ext upper ascii_upper).
    + vm_compute. reflexivity.
    + apply Hup. unfold is_ascii. apply forallb_is_ascii. vm_compute. reflexivity.
  - intros lang bucket Hsec.
    apply sections_member in Hsec as [-> Hkey].
    assert (Hne : bucket_of lang (collect lower root_dir script_name tree) <> []).
    { intros Hempty. rewrite collect_trace in Hkey.
      apply append_all_keys in Hkey as [[]|Hin].
      apply in_map_iff in Hin as [[l r] [Hl Hin]]. cbn [fst] in Hl. subst l.
      apply (bucket_member lower root_dir script_name) in Hin.
      rewrite Hempty in Hin. destruct Hin. }
    destruct (bucket_of lang (collect lower root_dir script_name tree))
      as [|r rs] eqn:Hb; [contradiction|].
    assert (Hr : In r (bucket_of lang (collect lower root_dir script_name tree)))
      by (rewrite Hb; left; reflexivity).
    apply bucket_member, trace_member in Hr as [e (_ & Hel & -> & _)].
    apply eligible_parts in Hel as [Hrec _]. apply recognized_lang_of in Hrec.
    apply ext_to_lang_declared in Hrec as [exts Hdecl].
    pose proof declared_labels_fit as Hfit. rewrite forallb_forall in Hfit.
    specialize (Hfit (lang_of lower (f_name (e_file e)))
                  (in_map fst _ _ Hdecl)).
    apply andb_true_iff in Hfit as [Hascii Hshape].
    apply bool_decide_eq_true in Hshape.
    rewrite (create_ascii_box_ext upper ascii_upper); [exact Hshape|].
    apply Hup, forallb_is_ascii, Hascii.
Qed.

Lemma report_banners_aligned_witness :
  List.map len (lines (create_ascii_box ascii_upper (py "Project Codebase Overview") 40 false))
    = [40; 40; 40]
  /\ List.map len (lines (create_ascii_box ascii_upper (py "JavaScript") 40 true))
     = [40; 40; 40].
Proof.
  destruct (report_banners_aligned ascii_lower ascii_upper demo_root demo_script demo_tree
              (fun s _ => eq_refl)) as [Hhead Hsec].
  split; [exact Hhead|].
  apply (Hsec (py "JavaScript") [mkRecord (py "app.js") demo_root (py "x")]).
  vm_compute. right. right. left. reflexivity.
Defined.

(** ** The successful path of the loop body *)

(** A base name with a visible stem splits at the dot of its extension. *)
Lemma splitext_stem_ext (stem rest : str) :
  ~ In sep stem -> (exists c, In c stem /\ c <> extsep) ->
  ~ In extsep rest -> ~ In sep rest ->
  os_path.splitext (stem ++ extsep :: rest) = (stem, extsep :: rest).
Proof.
  intros Hsep [c [Hc Hcdot]] Hdot Hrsep. unfold os_path.splitext.
  assert (Hs : os_path.rfind sep (stem ++ extsep :: rest) = -1).
  { apply rfind_none. rewrite in_app_iff. intros [H|[H|H]];
      [exact (Hsep H)|discriminate H|exact (Hrsep H)]. }
  assert (Hd : os_path.rfind extsep (stem ++ extsep :: rest) = len stem).
  { rewrite rfind_app. cbn [os_path.rfind]. rewrite (rfind_none extsep rest Hdot).
    change (0 <=? -1) with false. cbv iota. rewrite N.eqb_refl.
    change (0 <=? 0) with true. cbv iota. lia. }
  rewrite Hs, Hd. unfold len.
  destruct (Z.ltb_spec (-1) (Z.of_nat (length stem))) as [_|Habs]; [|lia].
  rewrite Nat2Z.id.
  assert (Hslice : os_path.slice (stem ++ extsep :: rest) (-1 + 1) (Z.of_nat (length stem))
                   = stem).
  { unfold os_path.slice. change (Z.to_nat (-1 + 1)) with 0%nat.
    change (skipn 0 (stem ++ extsep :: rest)) with (stem ++ extsep :: rest).
    replace (Z.to_nat (Z.of_nat (length stem) - (-1 + 1))) with (length stem) by lia.
    rewrite firstn_app, Nat.sub_diag, firstn_all. cbn [firstn]. apply app_nil_r. }
  rewrite Hslice.
  assert (Hex : existsb (fun ch => negb (N.eqb ch extsep)) stem = true).
  { apply existsb_exists. exists c. split; [exact Hc|].
    apply negb_true_iff, N.eqb_neq, Hcdot. }
  rewrite Hex, firstn_app, Nat.sub_diag, firstn_all, skipn_app, Nat.sub_diag, skipn_all.
  cbn [firstn skipn app]. rewrite app_nil_r. reflexivity.
Qed.

(** X11: the successful path, with extensions matched whatever their letter
    case.  Take a base name made of a stem (no separator, not only dots) and
    an ASCII extension (a dot, then no dot and no separator), other than the
    script's name.  If the ASCII-lowered extension is registered under
    [lang], a readable file of that name is appended to the bucket of
    [lang] with its name as it is spelled, its directory and its content; if
    it is not registered, the buckets stay as they are. *)
Theorem extension_matched_case_insensitively
    (lower : str -> str) (script_name dirpath : str)
    (files_by_lang : dict (list FileRecord)) (stem rest content : str) :
  lowers_ascii lower ->
  ~ In sep stem -> (exists c, In c stem /\ c <> extsep) ->
  ~ In extsep rest -> ~ In sep rest -> is_ascii rest ->
  stem ++ extsep :: rest <> script_name ->
  visit_file lower script_name dirpath files_by_lang
    (mkFile (stem ++ extsep :: rest) (ReadOk content))
  = match ext_to_lang ascii_lower !! ascii_lower (extsep :: rest) with
    | Some lang =>
        bucket_append lang (mkRecord (stem ++ extsep :: rest) dirpath content) files_by_lang
    | None => files_by_lang
    end.
Proof.
  intros Hlow Hsep Hstem Hdot Hrsep Hascii Hself.
  unfold visit_file, extension. cbn [f_name f_read].
  rewrite splitext_stem_ext by assumption. cbn [snd].
  rewrite Hlow by (constructor; [reflexivity|exact Hascii]).
  rewrite (ext_to_lang_ascii lower Hlow).
  destruct (ext_to_lang ascii_lower !! ascii_lower (extsep :: rest)); [|reflexivity].
  rewrite bool_decide_false by exact Hself. reflexivity.
Qed.

Lemma extension_matched_case_insensitively_witness :
  visit_file ascii_lower demo_script demo_root []
    (mkFile (py "Main" ++ extsep :: py "PY") (ReadOk (py "pass")))
  = match ext_to_lang ascii_lower !! ascii_lower (extsep :: py "PY") with
    | Some lang =>
        bucket_append lang (mkRecord (py "Main" ++ extsep :: py "PY") demo_root (py "pass")) []
    | None => []
    end.
Proof.
  apply (extension_matched_case_insensitively ascii_lower demo_script demo_root []
           (py "Main") (py "PY") (py "pass")).
  - intros s _. reflexivity.
  - vm_compute. intuition discriminate.
  - exists 77%N. split; [left; reflexivity|discriminate].
  - vm_compute. intuition discriminate.
  - vm_compute. intuition discriminate.
  - unfold is_ascii. repeat constructor.
  - vm_compute. discriminate.
Defined.

(** * debugger.py *)

Example fix_project_structure_demo :
  debugger.fix_project_structure debugger.demo_env
  = inr (debugger.mkStructureRun
           ([newline] ++ py "=== Project Structure Fix ===" ++ [newline]
              ++ py "Created src/ directory." ++ [newline]
              ++ py "Failed to move gpu.rs: Permission denied" ++ [newline]
              ++ py "Moved 2 files to src/: main.rs, lib.rs" ++ [newline])
           true
           [(py "main.rs", py "src/main.rs"); (py "gpu.rs", py "src/gpu.rs");
            (py "lib.rs", py "src/lib.rs")]
           [py "main.rs"; py "lib.rs"]).
Proof. vm_compute. reflexivity. Qed.

Lemma move_step_spec (entry : str * debugger.MoveOutcome)
    (log : str) (calls : list (str * str)) (moved : list str) :
  debugger.move_step (log, calls, moved) entry
  = (log ++ debugger.failure_line entry,
     calls ++ (if debugger.movable entry
               then [(fst entry, os_path.join (py "src") (fst entry))] else []),
     moved ++ (if debugger.move_succeeds entry then [fst entry] else [])).
Proof.
  destruct entry as [file outcome].
  unfold debugger.move_step, debugger.failure_line, debugger.move_succeeds,
    debugger.movable. cbn [fst snd].
  destruct (bool_decide (file = py "build.rs")); cbn [negb andb].
  - rewrite !app_nil_r. reflexivity.
  - destruct outcome as [|e]; rewrite ?app_nil_r; reflexivity.
Qed.

(** The loop, as one pass over the listing. *)
Lemma move_loop_spec (entries : list (str * debugger.MoveOutcome))
    (log : str) (calls : list (str * str)) (moved : list str) :
  foldl debugger.move_step (log, calls, moved) entries
  = (log ++ flat_map debugger.failure_line entries,
     calls ++ List.map (fun entry => (fst entry, os_path.join (py "src") (fst entry)))
                (List.filter debugger.movable entries),
     moved ++ List.map fst (List.filter debugger.move_succeeds entries)).
Proof.
  revert log calls moved. induction entries as [|entry entries IH];
    intros log calls moved.
  - cbn [foldl flat_map List.filter List.map]. rewrite !app_nil_r. reflexivity.
  - cbn [foldl flat_map List.filter]. rewrite move_step_spec, IH.
    destruct (debugger.movable entry); destruct (debugger.move_succeeds entry);
      cbn [List.map app]; repeat rewrite <- app_assoc; reflexivity.
Qed.

Lemma fix_project_structure_run (env : debugger.StructureEnv) (run : debugger.StructureRun) :
  debugger.fix_project_structure env = inr run ->
  run = debugger.mkStructureRun
          (([newline] ++ py "=== Project Structure Fix ===" ++ [newline]
              ++ (if debugger.src_exists env then []
                  else py "Created src/ directory." ++ [newline]))
             ++ flat_map debugger.failure_line (debugger.rs_files env)
             ++ match List.map fst (List.filter debugger.move_succeeds (debugger.rs_files env)) with
                | [] => py "No .rs files found in root to move." ++ [newline]
                | names =>
                    py "Moved " ++ debugger.str_of_nat (length names)
                      ++ py " files to src/: " ++ debugger.str_join (py ", ") names
                      ++ [newline]
                end)
          (negb (debugger.src_exists env))
          (List.map (fun entry => (fst entry, os_path.join (py "src") (fst entry)))
             (List.filter debugger.movable (debugger.rs_files env)))
          (List.map fst (List.filter debugger.move_succeeds (debugger.rs_files env))).
Proof.
  unfold debugger.fix_project_structure. intros Hrun.
  destruct (debugger.src_exists env) eqn:Hsrc.
  - rewrite move_loop_spec in Hrun. cbn [app] in Hrun. injection Hrun as <-.
    cbn [negb].
    destruct (List.map fst (List.filter debugger.move_succeeds (debugger.rs_files env)));
      repeat rewrite <- app_assoc; rewrite ?app_nil_r; reflexivity.
  - destruct (debugger.makedirs_error env) as [e|]; [discriminate Hrun|].
    rewrite move_loop_spec in Hrun. cbn [app] in Hrun. injection Hrun as <-.
    cbn [negb].
    destruct (List.map fst (List.filter debugger.move_succeeds (debugger.rs_files env)));
      repeat rewrite <- app_assoc; reflexivity.
Qed.

Lemma join_src (file : str) :
  os_path.startswith_sep file = false -> os_path.join (py "src") file = py "src/" ++ file.
Proof. intros H. unfold os_path.join. rewrite H. reflexivity. Qed.

(** X12: [fix_project_structure] never moves the build script.  It raises
    only when [src] is missing and cannot be created, before any move.
    Otherwise [shutil.move] is called once for each name of the listing other
    than [build.rs], in listing order, with the destination
    [os.path.join("src", file)] (that is [src/<file>] for a relative name),
    whether or not earlier moves failed; [moved_files] holds the names whose
    move succeeded, in that order; and [src] is created exactly when it was
    missing. *)
Theorem build_script_never_moved (env : debugger.StructureEnv) :
  (forall e, debugger.fix_project_structure env = inl e
             <-> debugger.src_exists env = false /\ debugger.makedirs_error env = Some e)
  /\ (forall run, debugger.fix_project_structure env = inr run ->
        debugger.move_calls run
        = List.map (fun entry => (fst entry, os_path.join (py "src") (fst entry)))
            (List.filter (fun entry => negb (bool_decide (fst entry = py "build.rs")))
               (debugger.rs_files env))
        /\ ~ In (py "build.rs") (List.map fst (debugger.move_calls run))
        /\ (forall file dest, In (file, dest) (debugger.move_calls run) ->
              os_path.startswith_sep file = false -> dest = py "src/" ++ file)
        /\ debugger.moved_files run
           = List.map fst
               (List.filter
                  (fun entry => negb (bool_decide (fst entry = py "build.rs"))
                                && match snd entry with
                                   | debugger.Moved => true
                                   | debugger.MoveFails _ => false
                                   end)
                  (debugger.rs_files env))
        /\ debugger.created_src run = negb (debugger.src_exists env)).
Proof.
  split.
  - intros e. unfold debugger.fix_project_structure.
    destruct (debugger.src_exists env).
    + rewrite move_loop_spec. split; [discriminate|intros [H _]; discriminate H].
    + destruct (debugger.makedirs_error env) as [e'|].
      * split; [intros H; injection H as ->; auto|intros [_ H]; injection H as ->; reflexivity].
      * rewrite move_loop_spec. split; [discriminate|intros [_ H]; discriminate H].
  - intros run Hrun. apply fix_project_structure_run in Hrun.
    subst run. cbn [debugger.move_calls debugger.moved_files debugger.created_src].
    split; [reflexivity|split; [|split; [|split; reflexivity]]].
    + rewrite List.map_map. cbn [fst]. intros Hin.
      apply in_map_iff in Hin as [entry [Hname Hin]].
      apply List.filter_In in Hin as [_ Hmov]. unfold debugger.movable in Hmov.
      rewrite Hname, bool_decide_true in Hmov by reflexivity. discriminate Hmov.
    + intros file dest Hin Hrel. apply in_map_iff in Hin as [entry [Heq _]].
      injection Heq as <- <-. apply join_src, Hrel.
Qed.

Lemma build_script_never_moved_witness :
  ~ In (py "build.rs")
      (List.map fst [(py "main.rs", py "src/main.rs"); (py "gpu.rs", py "src/gpu.rs");
                     (py "lib.rs", py "src/lib.rs")])
  /\ debugger.fix_project_structure
       (debugger.mkEnv false (Some (py "Read-only file system")) [(py "a.rs", debugger.Moved)])
     = inl (py "Read-only file system").
Proof.
  split.
  - apply (proj2 (build_script_never_moved debugger.demo_env)
             (debugger.mkStructureRun
                ([newline] ++ py "=== Project Structure Fix ===" ++ [newline]
                   ++ py "Created src/ directory." ++ [newline]
                   ++ py "Failed to move gpu.rs: Permission denied" ++ [newline]
                   ++ py "Moved 2 files to src/: main.rs, lib.rs" ++ [newline])
                true
                [(py "main.rs", py "src/main.rs"); (py "gpu.rs", py "src/gpu.rs");
                 (py "lib.rs", py "src/lib.rs")]
                [py "main.rs"; py "lib.rs"])).
    vm_compute. reflexivity.
  - apply (proj1 (build_script_never_moved
                    (debugger.mkEnv false (Some (py "Read-only file system"))
                       [(py "a.rs", debugger.Moved)]))).
    split; reflexivity.
Defined.



(** * search_copy.py: when writing the report raises *)




